(** * Print pipeline of printPDF.py: shallow embedding and verified properties

    The development follows the source file [printPDF.py]:

    - [PyFloat]: Python's [float] (IEEE 754 binary64) as the Standard
      Library's [spec_float], with the three conversions the worker uses
      ([int / int], [float / float], [int(float)]);
    - [Fit]: the per-page geometry of [printPdfWorker.run] (lines 80-96),
      with the range of the C [int]s the [QRect] constructor takes;
    - [Worker]: [printPdfWorker.__init__] and [printPdfWorker.run] as a
      trace-producing computation that can raise;
    - [Shell]: the handlers of [Window];
    - [ShellSpec]: the signals of a job as they reach the window. *)

From Stdlib Require Import ZArith List Bool Lia String Sorted.
From Stdlib Require Import Floats.SpecFloat.
From Stdlib Require QArith Qpower Lqa.
Import ListNotations.

Local Open Scope Z_scope.

(** ** Python exceptions and the result of a computation that can raise *)

Inductive exn : Type :=
| AttributeError
| TypeError
| ZeroDivisionError
| OverflowError
| ValueError
| PdfiumError.

Definition result (A : Type) : Type := (exn + A)%type.

Abbreviation ok := (@inr exn _) (only parsing).
Abbreviation throw := (@inl exn _) (only parsing).

Definition rbind {A B} (r : result A) (k : A -> result B) : result B :=
  match r with
  | inl e => inl e
  | inr a => k a
  end.

Declare Scope result_scope.
Delimit Scope result_scope with result.
Notation "'let?' x ':=' r 'in' k" := (rbind r (fun x => k))
  (at level 10, x name, r at level 100, k at level 200) : result_scope.

(** ** Python floats *)

Module PyFloat.

Definition prec : Z := 53.
Definition emax : Z := 1024.

Definition float : Type := spec_float.

(** [float(z)]: exact below 2^53, rounded to nearest even above. *)
Definition of_int (z : Z) : float := binary_normalize prec emax z 0 false.

Definition is_zero (f : float) : bool :=
  match f with
  | S754_zero _ => true
  | _ => false
  end.

(** [a / b] on two [int]s.  CPython divides the two operands as doubles
    whenever both are exactly representable (below 2^53), which is the
    range of every size and page count the worker handles. *)
Definition truediv (a b : Z) : result float :=
  if b =? 0 then throw ZeroDivisionError
  else ok (SFdiv prec emax (of_int a) (of_int b)).

(** [x / y] on two [float]s. *)
Definition fdiv (x y : float) : result float :=
  if is_zero y then throw ZeroDivisionError
  else ok (SFdiv prec emax x y).

(** [x * y] on two [float]s. *)
Definition fmul (x y : float) : float := SFmul prec emax x y.

Definition flt (x y : float) : bool := SFltb x y.
Definition fgt (x y : float) : bool := SFltb y x.

(** Truncation toward zero of a finite float. *)
Definition trunc (f : float) : Z :=
  match f with
  | S754_finite s m e => cond_Zopp s (Z.shiftl (Zpos m) e)
  | _ => 0
  end.

(** [int(f)]. *)
Definition to_int (f : float) : result Z :=
  match f with
  | S754_nan => throw ValueError
  | S754_infinity _ => throw OverflowError
  | _ => ok (trunc f)
  end.

End PyFloat.

(** ** Page geometry *)

Module Fit.
Import PyFloat.
Local Open Scope result_scope.

Record QRect : Type := mkQRect { rx : Z; ry : Z; rw : Z; rh : Z }.

(** What one iteration of the loop hands to [painter.drawImage]: the
    size of the (possibly transposed) image and the target rectangle. *)
Record fit : Type := mkFit {
  rotated : bool;
  pilWidth : Z;
  pilHeight : Z;
  printArea : QRect
}.

(** A value that fits a C [int]. *)
Definition is_cint (z : Z) : bool := (- 2 ^ 31 <=? z) && (z <? 2 ^ 31).

(** [QRect(x, y, w, h)]: the binding converts the four arguments to C
    [int]s and raises [OverflowError] for a Python [int] out of range. *)
Definition QRect_init (x y w h : Z) : result QRect :=
  if is_cint x && is_cint y && is_cint w && is_cint h
  then ok (mkQRect x y w h)
  else throw OverflowError.

(** The test of line 86. *)
Definition needs_rotation (viewportRatio imageRatio : float) : bool :=
  (flt viewportRatio (of_int 1) && fgt imageRatio (of_int 1))
  || (fgt viewportRatio (of_int 1) && flt imageRatio (of_int 1)).

(** Line 92-93: fit to the viewport width. *)
Definition fit_width (vw pw ph : Z) : result QRect :=
  let? r := truediv pw ph in
  let? q := fdiv (of_int vw) r in
  let? y := to_int q in
  QRect_init 0 0 vw y.

(** Line 95-96: fit to the viewport height. *)
Definition fit_height (vh pw ph : Z) : result QRect :=
  let? r := truediv pw ph in
  let? x := to_int (fmul r (of_int vh)) in
  QRect_init 0 0 x vh.

(** Lines 80-96 for a viewport [vw] x [vh] and a bitmap [pw] x [ph]. *)
Definition fitPage (vw vh pw ph : Z) : result fit :=
  let? imageRatio := truediv ph pw in
  let? viewportRatio := truediv vh vw in
  let rot := needs_rotation viewportRatio imageRatio in
  let '(pw', ph') := if rot then (ph, pw) else (pw, ph) in
  let? area :=
    if fgt viewportRatio imageRatio then fit_width vw pw' ph'
    else fit_height vh pw' ph' in
  ok (mkFit rot pw' ph' area).

End Fit.

(** ** Statements about the page geometry

    [fit_rect_claimed] follows the words of the specification (exact
    ratios, rounding to the nearest integer); [fit_rect_float] is the
    reading in Python arithmetic that the code implements on a page it
    does not rotate. *)

Module FitSpec.
Import PyFloat Fit.

(** Sizes handed over by Qt and PIL: positive C [int]s. *)
Definition size_ok (z : Z) : Prop := 0 < z < 2 ^ 31.
Definition size_okb (z : Z) : bool := (0 <? z) && (z <? 2 ^ 31).

(** The float [a / b] of two non-zero ints. *)
Definition ratio (a b : Z) : float := SFdiv prec emax (of_int a) (of_int b).

Definition width_rect (vw pw ph : Z) : QRect :=
  mkQRect 0 0 vw (trunc (SFdiv prec emax (of_int vw) (ratio pw ph))).

Definition height_rect (vh pw ph : Z) : QRect :=
  mkQRect 0 0 (trunc (fmul (ratio pw ph) (of_int vh))) vh.

Definition fit_rect_float (vw vh pw ph : Z) : QRect :=
  if fgt (ratio vh vw) (ratio ph pw) then width_rect vw pw ph
  else height_rect vh pw ph.

(** The rectangle handed to the [QRect] constructor. *)
Definition QRect_of (r : QRect) : result QRect :=
  QRect_init (rx r) (ry r) (rw r) (rh r).

(** The rectangle of a page that is rotated: the branch of line 91 is
    taken on the sizes after the transpose. *)
Definition rotated_rect (vw vh pw ph : Z) : QRect :=
  if fgt (ratio vh vw) (ratio ph pw) then width_rect vw ph pw
  else height_rect vh ph pw.

(** The bitmap scaled to the viewport stays a C [int] on either side:
    the longer side of the viewport times the longer side of the bitmap
    is at most 2^31 - 1 times the shorter side of the bitmap. *)
Definition fits_device (vw vh pw ph : Z) : bool :=
  Z.max vw vh * Z.max pw ph <=? (2 ^ 31 - 1) * Z.min pw ph.

(** [round(n / d)] on an exact quotient, ties to even as Python does. *)
Definition round_div (n d : Z) : Z :=
  let q := n / d in
  let r := n mod d in
  if 2 * r <? d then q
  else if d <? 2 * r then q + 1
  else if Z.even q then q else q + 1.

(** The rectangle as the specification words it: if [VH/VW > PH/PW]
    then [(0, 0, VW, round(VW / (PW/PH)))], otherwise
    [(0, 0, round(PH/PW * VH), VH)]. *)
Definition fit_rect_claimed (vw vh pw ph : Z) : QRect :=
  if ph * vw <? vh * pw
  then mkQRect 0 0 vw (round_div (vw * ph) pw)
  else mkQRect 0 0 (round_div (ph * vh) pw) vh.

End FitSpec.

(** ** Traces: computations that call the collaborators and can raise *)

Definition M (E A : Type) : Type := (list E * result A)%type.

Definition ret {E A} (a : A) : M E A := ([], ok a).
Definition raise {E A} (e : exn) : M E A := ([], throw e).
Definition emit {E} (ev : E) : M E unit := ([ev], ok tt).
Definition lift {E A} (r : result A) : M E A := ([], r).

Definition bind {E A B} (m : M E A) (k : A -> M E B) : M E B :=
  match m with
  | (t, inl e) => (t, inl e)
  | (t, inr a) => let '(t', r) := k a in (t ++ t', r)
  end.

Declare Scope trace_scope.
Delimit Scope trace_scope with trace.
Notation "x <- m ;; k" := (bind m (fun x => k))
  (at level 61, m at next level, right associativity) : trace_scope.
Notation "m ;; k" := (bind m (fun _ => k))
  (at level 61, right associativity) : trace_scope.

Definition trace_of {E A} (m : M E A) : list E := fst m.
Definition outcome_of {E A} (m : M E A) : result A := snd m.

(** ** The worker: [printPdfWorker] *)

Module Worker.
Import PyFloat Fit.
Local Open Scope trace_scope.

(** The values [__init__] can be handed for [pdf] to name a file:
    [None] (the default), a [str], a [pathlib.Path], another
    [os.PathLike] object (a [PurePosixPath], say) and a [bytes] path,
    each with the text of the path. *)
Inductive pyval : Type :=
| PyNone
| PyStr (s : string)
| PyPath (s : string)
| PyPathLike (s : string)
| PyBytes (s : string).

(** The worker holds the path object [Path(pdf)], which stands here as
    the text it was built from. *)
Record printPdfWorker : Type := mkWorker { pdf_file : string }.

Definition is_None (v : pyval) : bool :=
  match v with PyNone => true | _ => false end.
Definition isinstance_str (v : pyval) : bool :=
  match v with PyStr _ => true | _ => false end.
Definition isinstance_Path (v : pyval) : bool :=
  match v with PyPath _ => true | _ => false end.

(** [os.path.exists(pdf)] against the file system [fs]. *)
Definition os_path_exists (fs : string -> bool) (v : pyval) : bool :=
  match v with
  | PyStr s | PyPath s | PyPathLike s | PyBytes s => fs s
  | PyNone => false
  end.

(** [Path(pdf)]: pathlib builds a path from a [str] or an [os.PathLike]
    object and raises [TypeError] for anything else.  The path is kept
    as the text it was built from; the normal form pathlib gives that
    text is not computed. *)
Definition Path (v : pyval) : result string :=
  match v with
  | PyStr s | PyPath s | PyPathLike s => ok s
  | PyNone | PyBytes _ => throw TypeError
  end.

(** [printPdfWorker.__init__] (lines 40-51). *)
Definition init (fs : string -> bool) (pdf : pyval) : result printPdfWorker :=
  if is_None pdf then throw AttributeError
  else if isinstance_str pdf || isinstance_Path pdf
          || negb (os_path_exists fs pdf)
  then (let? p := Path pdf in ok (mkWorker p))%result
  else throw TypeError.

(** Calls on the collaborators and signals, in program order. *)
Inductive event : Type :=
| EvDialogExec
| EvPainterBegin
| EvOpenDocument
| EvRender (page_indices : list Z)
| EvNewPage
| EvDrawImage (area : QRect) (width height : Z)
| EvProgress (percent : Z)
| EvPdfClose
| EvPainterEnd
| EvDelPrinter
| EvFinished.

(** What the collaborators answer during one job: the outcome of the
    print dialog; the width and height of [painter.viewport()]; the page
    count of the document, or the exception [PdfDocument] raises; the
    page fields of the printer; and, for a list of page indices, what the
    generator of [pdf.render] yields in order: the size of a bitmap or
    the exception raised in its place, the end of the list being the end
    of the generator. *)
Record job : Type := mkJob {
  dialog_exec : bool;
  viewport : Z * Z;
  open_document : result Z;
  fromPage : Z;
  toPage : Z;
  renderer : list Z -> list (result (Z * Z))
}.

(** [range(lo, hi)]. *)
Definition py_range (lo hi : Z) : list Z :=
  map (fun k => lo + Z.of_nat k) (seq 0 (Z.to_nat (hi - lo))).

Definition len {A} (l : list A) : Z := Z.of_nat (List.length l).

(** Lines 63-67. *)
Definition page_indices (n_pages fromPage toPage : Z) : list Z :=
  if fromPage =? 0 then py_range 0 n_pages
  else py_range (fromPage - 1) toPage.

(** [int(pageNumber*100/len(page_indices))] (line 103). *)
Definition percent (pageNumber total : Z) : result Z :=
  (let? q := truediv (pageNumber * 100) total in to_int q)%result.

(** The loop of lines 75-103 over
    [zip(page_indices, renderer, count(1))]. *)
Fixpoint render_loop (vw vh total : Z) (indices : list Z)
    (images : list (result (Z * Z))) (pageNumber : Z) : M event unit :=
  match indices, images with
  | _ :: indices', inr (w, h) :: images' =>
      (if 1 <? pageNumber then emit EvNewPage else ret tt) ;;
      f <- lift (fitPage vw vh w h) ;;
      emit (EvDrawImage (printArea f) (pilWidth f) (pilHeight f)) ;;
      p <- lift (percent pageNumber total) ;;
      emit (EvProgress p) ;;
      render_loop vw vh total indices' images' (pageNumber + 1)
  | _ :: _, inl e :: _ => raise e
  | _, _ => ret tt
  end.

(** [printPdfWorker.run] (lines 53-110). *)
Definition run (j : job) : M event unit :=
  emit EvDialogExec ;;
  (if dialog_exec j then
     emit EvPainterBegin ;;
     let '(vw, vh) := viewport j in
     emit EvOpenDocument ;;
     n_pages <- lift (open_document j) ;;
     let indices := page_indices n_pages (fromPage j) (toPage j) in
     emit (EvRender indices) ;;
     render_loop vw vh (len indices) indices (renderer j indices) 1 ;;
     emit EvPdfClose ;;
     emit EvPainterEnd
   else ret tt) ;;
  emit EvDelPrinter ;;
  emit EvFinished.

Definition is_draw (ev : event) : bool :=
  match ev with EvDrawImage _ _ _ => true | _ => false end.
Definition is_newPage (ev : event) : bool :=
  match ev with EvNewPage => true | _ => false end.
Definition is_progress (ev : event) : bool :=
  match ev with EvProgress _ => true | _ => false end.
Definition is_finished (ev : event) : bool :=
  match ev with EvFinished => true | _ => false end.
Definition is_cleanup (ev : event) : bool :=
  match ev with EvPdfClose | EvPainterEnd => true | _ => false end.

Definition count (p : event -> bool) (t : list event) : nat :=
  List.length (filter p t).

(** The progress values of a trace, in emission order. *)
Fixpoint progress_values (t : list event) : list Z :=
  match t with
  | [] => []
  | EvProgress p :: t' => p :: progress_values t'
  | _ :: t' => progress_values t'
  end.

End Worker.

(** ** The shell: [Window] *)

Module Shell.
Import Worker.
Local Open Scope trace_scope.

(** The window: the click counter, the numbers its two labels show, the
    state of the print button, and the worker and thread of the job. *)
Record Window : Type := mkWindow {
  clicksCount : Z;
  clicksLabel : Z;
  stepLabel : Z;
  longRunningBtn_enabled : bool;
  worker : option printPdfWorker;
  thread_started : bool
}.

Inductive signal : Type :=
| thread_started_sig | thread_finished_sig
| worker_finished_sig | worker_progress_sig.

Inductive slot : Type :=
| worker_run | thread_quit | worker_deleteLater | thread_deleteLater
| reportProgress_slot | printFinished_slot.

Inductive ui_event : Type :=
| UiGetOpenFileName
| UiNewThread
| UiNewWorker (pdf : pyval)
| UiMoveToThread
| UiConnect (s : signal) (t : slot)
| UiThreadStart
| UiSetEnabled (b : bool)
| UiMessageBox.

(** [Window.getFile] returns the first component of the picker's answer;
    a cancelled picker answers the empty string. *)
Definition getFile (picked : string) : M ui_event string :=
  emit UiGetOpenFileName ;; ret picked.

Definition countClicks (w : Window) : Window :=
  mkWindow (clicksCount w + 1) (clicksCount w + 1) (stepLabel w)
           (longRunningBtn_enabled w) (worker w) (thread_started w).

Definition reportProgress (w : Window) (n : Z) : Window :=
  mkWindow (clicksCount w) (clicksLabel w) n
           (longRunningBtn_enabled w) (worker w) (thread_started w).

Definition printFinished (w : Window) : M ui_event Window :=
  emit (UiSetEnabled true) ;;
  emit UiMessageBox ;;
  ret (mkWindow (clicksCount w) (clicksLabel w) 0 true
                (worker w) (thread_started w)).

(** [Window.runPrintTask] (lines 165-184), over the constructor
    [printPdfWorker] that line 170 calls. *)
Definition runPrintTask_on (new_worker : pyval -> result printPdfWorker)
    (picked : string) (w : Window) : M ui_event Window :=
  pdf_file <- getFile picked ;;
  emit UiNewThread ;;
  emit (UiNewWorker (PyStr pdf_file)) ;;
  wk <- lift (new_worker (PyStr pdf_file)) ;;
  emit UiMoveToThread ;;
  emit (UiConnect thread_started_sig worker_run) ;;
  emit (UiConnect worker_finished_sig thread_quit) ;;
  emit (UiConnect worker_finished_sig worker_deleteLater) ;;
  emit (UiConnect thread_finished_sig thread_deleteLater) ;;
  emit (UiConnect worker_progress_sig reportProgress_slot) ;;
  emit UiThreadStart ;;
  emit (UiSetEnabled false) ;;
  emit (UiConnect thread_finished_sig printFinished_slot) ;;
  ret (mkWindow (clicksCount w) (clicksLabel w) (stepLabel w) false
                (Some wk) true).

(** The handler of the program: the constructor is [__init__]. *)
Definition runPrintTask (fs : string -> bool) (picked : string)
    (w : Window) : M ui_event Window :=
  runPrintTask_on (init fs) picked w.

Definition is_thread_start (ev : ui_event) : bool :=
  match ev with UiThreadStart => true | _ => false end.
Definition is_disable (ev : ui_event) : bool :=
  match ev with UiSetEnabled false => true | _ => false end.
Definition is_new_worker (ev : ui_event) : bool :=
  match ev with UiNewWorker _ => true | _ => false end.

End Shell.

(** ** Statements about a job *)

Module WorkerSpec.
Import FitSpec Worker.

(** The renderer hands back one bitmap of well-formed size. *)
Definition good_image (r : result (Z * Z)) : bool :=
  match r with
  | inr (w, h) => size_okb w && size_okb h
  | inl _ => false
  end.

(** The renderer yields one good bitmap for every requested index. *)
Definition renders_all (j : job) (indices : list Z) : bool :=
  (List.length (renderer j indices) =? List.length indices)%nat
  && forallb good_image (renderer j indices).

Definition viewport_ok (j : job) : bool :=
  size_okb (fst (viewport j)) && size_okb (snd (viewport j)).

(** A bitmap whose rectangle fits the device on the viewport. *)
Definition fits_viewport (vw vh : Z) (r : result (Z * Z)) : bool :=
  match r with
  | inr (w, h) => fits_device vw vh w h
  | inl _ => true
  end.

(** Every bitmap the renderer yields fits the device. *)
Definition pages_fit (j : job) (indices : list Z) : bool :=
  forallb (fits_viewport (fst (viewport j)) (snd (viewport j)))
          (renderer j indices).

(** The draw call the loop makes for one item of the renderer, if it
    makes one. *)
Definition draw_call (vw vh : Z) (r : result (Z * Z)) : option event :=
  match r with
  | inr (w, h) =>
      match Fit.fitPage vw vh w h with
      | inr f =>
          Some (EvDrawImage (Fit.printArea f) (Fit.pilWidth f)
                            (Fit.pilHeight f))
      | inl _ => None
      end
  | inl _ => None
  end.

(** The draw calls of a trace, in order. *)
Definition draws (t : list event) : list event := filter is_draw t.

(** The events one iteration of the loop can produce. *)
Definition loop_event (ev : event) : bool :=
  match ev with
  | EvNewPage | EvDrawImage _ _ _ | EvProgress _ => true
  | _ => false
  end.

(** The loop of [run] for an accepted job that opened [n_pages] pages. *)
Definition loop_of (j : job) (n_pages : Z) : M event unit :=
  let indices := page_indices n_pages (fromPage j) (toPage j) in
  render_loop (fst (viewport j)) (snd (viewport j)) (len indices)
              indices (renderer j indices) 1.

(** [floor(k * 100 / N)] for [k = 1 .. N]. *)
Definition floor_percents (N : Z) : list Z :=
  map (fun k => k * 100 / N) (py_range 1 (N + 1)).


End WorkerSpec.

(** ** Concrete jobs *)

Module Examples.
Import Worker Shell.

(** An A4 page rasterised at 300 DPI for every requested index. *)
Definition a4_pages (indices : list Z) : list (result (Z * Z)) :=
  map (fun _ => ok (2480, 3508)) indices.

(** The A4 viewport of a printer in high-resolution mode (1200 DPI). *)
Definition a4_viewport : Z * Z := (9921, 14031).

Definition job_full (n_pages : Z) : job :=
  mkJob true a4_viewport (ok n_pages) 0 0 a4_pages.

Definition job_sub (n_pages from to : Z) : job :=
  mkJob true a4_viewport (ok n_pages) from to a4_pages.

Definition job_declined : job :=
  mkJob false a4_viewport (ok 3) 0 0 a4_pages.


(** A landscape viewport and a bitmap one pixel wide: the page is
    rotated and scaled to a width beyond 2^31. *)
Definition job_strip : job :=
  mkJob true (14031, 9921) (ok 1) 0 0 (fun _ => [ok (1, 216500)]).

Definition window0 : Window := mkWindow 0 0 0 true None false.

Definition no_files : string -> bool := fun _ => false.

End Examples.

(** ** The shell as a state machine *)

Module ShellSpec.
Import Worker Shell.
Local Open Scope trace_scope.

(** The window after [Window.__init__] and [setupUi]: no click counted,
    both labels at 0, the print button enabled, no job. *)
Definition Window_init : Window := mkWindow 0 0 0 true None false.

(** The slots that lines 174-184 wire to the signals of the worker:
    [progress] reaches [reportProgress]; [finished] makes the thread
    quit, and the thread's own [finished] reaches [printFinished].  The
    other events of the worker are no signals. *)
Definition on_signal (w : Window) (ev : event) : M ui_event Window :=
  match ev with
  | EvProgress n => ret (reportProgress w n)
  | EvFinished => printFinished w
  | _ => ret w
  end.

(** The signals of the trace of a run that returned, delivered to the
    window in order. *)
Fixpoint deliver (t : list event) (w : Window) : M ui_event Window :=
  match t with
  | [] => ret w
  | ev :: t' => w' <- on_signal w ev ;; deliver t' w'
  end.

(** The states the handlers can reach from the initial window.  Which
    handler may run when is not restricted, so this contains every state
    of the program. *)
Inductive reachable : Window -> Prop :=
| reach_init : reachable Window_init
| reach_countClicks (w : Window) :
    reachable w -> reachable (countClicks w)
| reach_reportProgress (w : Window) (n : Z) :
    reachable w -> reachable (reportProgress w n)
| reach_printFinished (w w' : Window) :
    reachable w -> outcome_of (printFinished w) = ok w' -> reachable w'
| reach_runPrintTask (fs : string -> bool) (picked : string)
    (w w' : Window) :
    reachable w -> outcome_of (runPrintTask fs picked w) = ok w' ->
    reachable w'.

Definition is_message_box (ev : ui_event) : bool :=
  match ev with UiMessageBox => true | _ => false end.

(** The program once a job has run in its thread.  [run] is a slot, and
    PyQt6 ends the process when an exception leaves a slot: only a run
    that returns has its signals delivered to a window that lives on. *)
Inductive program : Type :=
| Running (w : Window)
| Aborted.

Definition after_job (j : job) (w : Window) : M ui_event program :=
  match outcome_of (run j) with
  | inr _ => w' <- deliver (trace_of (run j)) w ;; ret (Running w')
  | inl _ => ret Aborted
  end.

End ShellSpec.

(** ** The value of a float and the exact fit *)

Module FitExact.
Import PyFloat Fit.

(** The rational number a float stands for. *)
Definition F2Q (f : float) : QArith_base.Q :=
  match f with
  | S754_finite s m e =>
      QArith_base.Qmult (QArith_base.inject_Z (cond_Zopp s (Zpos m)))
                        (QArith_base.Qpower (QArith_base.inject_Z 2) e)
  | _ => QArith_base.inject_Z 0
  end.

(** The unit roundoff of binary64. *)
Definition u53 : QArith_base.Q := QArith_base.Qmake 1 9007199254740992.

(** [y] is [x] rounded: the two differ by at most [u53] times [y]. *)
Definition rounds_to (y x : QArith_base.Q) : Prop :=
  QArith_base.Qle
    (QArith_base.Qmult y (QArith_base.Qminus (QArith_base.inject_Z 1) u53)) x
  /\ QArith_base.Qle
       x (QArith_base.Qmult y (QArith_base.Qplus (QArith_base.inject_Z 1) u53)).

(** The rectangle sits at the origin and inside the viewport. *)
Definition rect_in_viewport (vw vh : Z) (r : QRect) : Prop :=
  rx r = 0 /\ ry r = 0 /\ 0 <= rw r <= vw /\ 0 <= rh r <= vh.

End FitExact.

(** ** Reading of the rounding locations of [SpecFloat]

    [loc_sem b r l]: the location [l] describes the position of the
    remainder [r] of a division by [b] with respect to the half [b/2]. *)

Definition loc_sem (b r : Z) (l : location) : Prop :=
  match l with
  | loc_Exact => r = 0
  | loc_Inexact Lt => 0 < 2 * r < b
  | loc_Inexact Eq => 2 * r = b
  | loc_Inexact Gt => b < 2 * r
  end.

(** A positive normal binary64 number: 53 significant bits. *)
Definition normal53 (m : positive) : Prop :=
  2 ^ 52 <= Zpos m < 2 ^ 53.

(** * Facts on the float layer *)

Module PyFloatFacts.
Import PyFloat.

Lemma digits2_pos_bounds (p : positive) :
  2 ^ (Zpos (digits2_pos p) - 1) <= Zpos p < 2 ^ Zpos (digits2_pos p).
Proof.
  induction p as [p IH | p IH | ]; simpl digits2_pos;
    try (rewrite Pos2Z.inj_succ;
         replace (Z.succ (Zpos (digits2_pos p)) - 1)
           with (Z.succ (Zpos (digits2_pos p) - 1)) by lia;
         rewrite !Z.pow_succ_r by lia; lia).
  simpl. lia.
Qed.

Lemma Zdigits2_unique (z d : Z) :
  0 < z -> 2 ^ (d - 1) <= z < 2 ^ d -> Zdigits2 z = d.
Proof.
  intros Hz [Hlo Hhi].
  destruct z as [ | p | p ]; try lia. simpl.
  pose proof (digits2_pos_bounds p) as [Blo Bhi].
  set (d' := Zpos (digits2_pos p)) in *.
  assert (Hd : 0 < d).
  { destruct (Z_lt_le_dec 0 d) as [ | Hn ]; [ assumption | ].
    destruct (Z.eq_dec d 0) as [ -> | ]; [ simpl in Hhi; lia | ].
    rewrite Z.pow_neg_r in Hhi by lia. lia. }
  destruct (Z.lt_trichotomy d' d) as [ Hlt | [ Heq | Hgt ] ]; [ | exact Heq | ].
  - assert (2 ^ d' <= 2 ^ (d - 1)) by (apply Z.pow_le_mono_r; lia). lia.
  - assert (2 ^ d <= 2 ^ (d' - 1)) by (apply Z.pow_le_mono_r; lia). lia.
Qed.

Lemma new_location_sem (b r : Z) :
  0 < b -> 0 <= r < b -> loc_sem b r (new_location b r).
Proof.
  intros Hb Hr. unfold new_location, new_location_even, new_location_odd.
  destruct (Z.even b) eqn:Ev.
  - destruct (Z.eqb_spec r 0) as [ -> | Hn ]; [ reflexivity | ].
    destruct (Z.compare_spec (2 * r) b); unfold loc_sem; lia.
  - destruct (Z.eqb_spec r 0) as [ -> | Hn ]; [ reflexivity | ].
    assert (Hodd : Z.odd b = true) by (rewrite <- Z.negb_even, Ev; reflexivity).
    apply Z.odd_spec in Hodd. destruct Hodd as [k Hk].
    destruct (Z.compare_spec (2 * r + 1) b); unfold loc_sem; lia.
Qed.

Lemma rne_sem (q b r : Z) (l : location) :
  0 < b -> 0 <= r < b -> loc_sem b r l ->
  q <= round_nearest_even q l <= q + 1
  /\ 2 * (q * b + r) - b <= 2 * round_nearest_even q l * b
     <= 2 * (q * b + r) + b.
Proof.
  intros Hb Hr Hl.
  destruct l as [ | [ | | ] ]; unfold loc_sem, round_nearest_even in *;
    try destruct (Z.even q); nia.
Qed.

Lemma shr_record_of_loc_inv (mrs : shr_record) :
  shr_record_of_loc (shr_m mrs) (loc_of_shr_record mrs) = mrs.
Proof. destruct mrs as [m [ | ] [ | ]]; reflexivity. Qed.

Lemma loc_of_shr_record_of_loc (m : Z) (l : location) :
  loc_of_shr_record (shr_record_of_loc m l) = l
  /\ shr_m (shr_record_of_loc m l) = m.
Proof. destruct l as [ | [ | | ] ]; split; reflexivity. Qed.

Lemma shr_1_sem (mrs : shr_record) (b r : Z) :
  0 <= shr_m mrs -> 0 < b -> 0 <= r < b ->
  loc_sem b r (loc_of_shr_record mrs) ->
  shr_m (shr_1 mrs) = shr_m mrs / 2
  /\ loc_sem (2 * b) ((shr_m mrs mod 2) * b + r)
              (loc_of_shr_record (shr_1 mrs)).
Proof.
  intros Hm Hb Hr Hl. destruct mrs as [m rb sb]. cbn [shr_m] in *.
  destruct m as [ | p | p ]; [ | | lia ].
  - change (0 / 2) with 0. change (0 mod 2) with 0.
    destruct rb, sb;
        cbv [loc_sem loc_of_shr_record shr_1 orb shr_m] in Hl |- *;
        split; try reflexivity; lia.
  - assert (Hdiv : Zpos p = 2 * (Zpos p / 2) + Zpos p mod 2)
      by (apply Z.div_mod; lia).
    assert (Hmod : 0 <= Zpos p mod 2 < 2) by (apply Z.mod_pos_bound; lia).
    destruct p as [ p | p | ].
    + assert (Zpos p~1 / 2 = Zpos p /\ Zpos p~1 mod 2 = 1) as [-> ->] by lia.
      destruct rb, sb;
        cbv [loc_sem loc_of_shr_record shr_1 orb shr_m] in Hl |- *;
        split; try reflexivity; lia.
    + assert (Zpos p~0 / 2 = Zpos p /\ Zpos p~0 mod 2 = 0) as [-> ->] by lia.
      destruct rb, sb;
        cbv [loc_sem loc_of_shr_record shr_1 orb shr_m] in Hl |- *;
        split; try reflexivity; lia.
    + change (1 / 2) with 0. change (1 mod 2) with 1.
      destruct rb, sb;
        cbv [loc_sem loc_of_shr_record shr_1 orb shr_m] in Hl |- *;
        split; try reflexivity; lia.
Qed.

Lemma shr_iter_sem (n : nat) (mrs : shr_record) (b r : Z) :
  0 <= shr_m mrs -> 0 < b -> 0 <= r < b ->
  loc_sem b r (loc_of_shr_record mrs) ->
  let mrs' := Nat.iter n shr_1 mrs in
  let P := 2 ^ Z.of_nat n in
  shr_m mrs' = shr_m mrs / P
  /\ loc_sem (P * b) ((shr_m mrs mod P) * b + r) (loc_of_shr_record mrs').
Proof.
  intros Hm Hb Hr Hl. induction n as [ | n IH ].
  - cbn [Nat.iter nat_rect Z.of_nat]. cbv zeta. change (2 ^ 0) with 1.
    rewrite Z.div_1_r, Z.mod_1_r, Z.mul_1_l, Z.mul_0_l, Z.add_0_l.
    split; [ reflexivity | exact Hl ].
  - cbn zeta in IH |- *. destruct IH as [IHm IHl].
    rewrite Nat.iter_succ. set (mrs' := Nat.iter n shr_1 mrs) in *.
    rewrite Nat2Z.inj_succ, Z.pow_succ_r by lia.
    set (P := 2 ^ Z.of_nat n) in *.
    assert (HP : 0 < P) by (apply Z.pow_pos_nonneg; lia).
    assert (Hrem : 0 <= shr_m mrs mod P < P) by (apply Z.mod_pos_bound; lia).
    destruct (shr_1_sem mrs' (P * b) ((shr_m mrs mod P) * b + r))
      as [Sm Sl]; try assumption; try nia.
    { rewrite IHm. apply Z.div_pos; lia. }
    split.
    + rewrite Sm, IHm, Z.div_div by lia. f_equal. lia.
    + rewrite IHm in Sl.
      replace (2 * P * b) with (2 * (P * b)) by ring.
      replace (shr_m mrs mod (2 * P) * b + r)
        with (shr_m mrs / P mod 2 * (P * b) + (shr_m mrs mod P * b + r)).
      * exact Sl.
      * rewrite (Z.mul_comm 2 P), Z.rem_mul_r by lia. ring.
Qed.

Lemma iter_pos_nat {A} (f : A -> A) (p : positive) (x : A) :
  iter_pos f p x = Nat.iter (Pos.to_nat p) f x.
Proof.
  revert x. induction p as [ p IH | p IH | ]; intros x; cbn [iter_pos].
  - rewrite !IH, Pos2Nat.inj_xI.
    replace (S (2 * Pos.to_nat p))%nat
      with (Pos.to_nat p + (Pos.to_nat p + 1))%nat by lia.
    rewrite !Nat.iter_add. reflexivity.
  - rewrite !IH, Pos2Nat.inj_xO.
    replace (2 * Pos.to_nat p)%nat
      with (Pos.to_nat p + Pos.to_nat p)%nat by lia.
    rewrite Nat.iter_add. reflexivity.
  - reflexivity.
Qed.

(** [shr] by [n >= 0] bits divides the mantissa by [2^n] and keeps the
    location of what was shifted out. *)
Lemma shr_sem (mrs : shr_record) (e n b r : Z) :
  0 <= n -> 0 <= shr_m mrs -> 0 < b -> 0 <= r < b ->
  loc_sem b r (loc_of_shr_record mrs) ->
  snd (shr mrs e n) = e + n
  /\ shr_m (fst (shr mrs e n)) = shr_m mrs / 2 ^ n
  /\ loc_sem (2 ^ n * b) ((shr_m mrs mod 2 ^ n) * b + r)
              (loc_of_shr_record (fst (shr mrs e n))).
Proof.
  intros Hn Hm Hb Hr Hl. destruct n as [ | p | p ]; [ | | lia ].
  - cbn [shr fst snd].
    change (2 ^ 0) with 1.
    rewrite Z.div_1_r, Z.mod_1_r, Z.mul_1_l, Z.mul_0_l, Z.add_0_l, Z.add_0_r.
    repeat split. exact Hl.
  - cbn [shr fst snd]. rewrite iter_pos_nat.
    pose proof (shr_iter_sem (Pos.to_nat p) mrs b r Hm Hb Hr Hl) as H.
    cbn zeta in H. rewrite positive_nat_Z in H.
    destruct H as [H1 H2]. repeat split; assumption.
Qed.

Lemma fexp_normal (x : Z) :
  -1074 <= x - 53 -> fexp prec emax x = x - 53.
Proof. unfold fexp, emin, prec, emax. lia. Qed.

(** Rounding a positive mantissa of at least 53 bits, away from the
    subnormal and overflow ranges: the result is a normal number, at
    most half a unit in the last place from the rounded value
    [(mx + r/b) * 2^ex]. *)
Lemma binary_round_aux_spec (mx ex b r : Z) (l : location) :
  0 < mx -> 53 <= Zdigits2 mx -> -1074 <= ex + Zdigits2 mx - 53 <= 970 ->
  0 < b -> 0 <= r < b -> loc_sem b r l ->
  exists (m : positive) (k : Z),
    binary_round_aux prec emax false mx ex l
    = S754_finite false m (ex + (Zdigits2 mx - 53) + k)
    /\ 0 <= k <= 1 /\ normal53 m
    /\ 2 * (mx * b + r) - 2 ^ (Zdigits2 mx - 53) * b
       <= 2 * (Zpos m * 2 ^ k) * (2 ^ (Zdigits2 mx - 53) * b)
       <= 2 * (mx * b + r) + 2 ^ (Zdigits2 mx - 53) * b.
Proof.
  intros Hmx HD Hex Hb Hr Hl.
  set (D := Zdigits2 mx) in *. set (n := D - 53).
  assert (Hn : 0 <= n) by (unfold n; lia).
  assert (HDb : 2 ^ (D - 1) <= mx < 2 ^ D).
  { destruct mx as [ | p | p ]; try lia. apply digits2_pos_bounds. }
  unfold binary_round_aux, shr_fexp. fold D.
  rewrite fexp_normal by lia.
  replace (D + ex - 53 - ex) with n by (unfold n; lia).
  destruct (loc_of_shr_record_of_loc mx l) as [Hloc Hm0].
  destruct (shr_sem (shr_record_of_loc mx l) ex n b r) as (He & Hm & Hs);
    try assumption; try (rewrite Hm0; lia); try (rewrite Hloc; exact Hl).
  destruct (shr (shr_record_of_loc mx l) ex n) as [mrs' e'].
  cbn [fst snd] in He, Hm, Hs. subst e'. rewrite Hm0 in Hm, Hs.
  set (P := 2 ^ n) in *.
  assert (HP : 0 < P) by (apply Z.pow_pos_nonneg; lia).
  assert (HP1 : 2 ^ (D - 1) = 2 ^ 52 * P).
  { unfold P. rewrite <- Z.pow_add_r by lia. f_equal. unfold n. lia. }
  assert (HP2 : 2 ^ D = 2 ^ 53 * P).
  { unfold P. rewrite <- Z.pow_add_r by lia. f_equal. unfold n. lia. }
  assert (Hdm : mx = P * (mx / P) + mx mod P) by (apply Z.div_mod; lia).
  assert (Hrem : 0 <= mx mod P < P) by (apply Z.mod_pos_bound; lia).
  set (m0 := mx / P) in *. set (R := mx mod P * b + r) in *.
  assert (Hm0b : 2 ^ 52 <= m0 < 2 ^ 53) by nia.
  destruct (rne_sem m0 (P * b) R (loc_of_shr_record mrs'))
    as [Hq Hacc]; try assumption; try (unfold R; nia).
  rewrite Hm. set (m1 := round_nearest_even m0 (loc_of_shr_record mrs')) in *.
  assert (Hval : m0 * (P * b) + R = mx * b + r) by (unfold R; nia).
  rewrite Hval in Hacc.
  change (2 ^ 52) with 4503599627370496 in *.
  change (2 ^ 53) with 9007199254740992 in *.
  destruct (Z_lt_le_dec m1 9007199254740992) as [Hlt | Hge].
  - assert (Hd1 : Zdigits2 m1 = 53)
      by (apply Zdigits2_unique; [ lia | ];
          change (2 ^ (53 - 1)) with 4503599627370496;
          change (2 ^ 53) with 9007199254740992; lia).
    rewrite Hd1, fexp_normal by lia.
    replace (53 + (ex + n) - 53 - (ex + n)) with 0 by lia.
    cbn [shr shr_record_of_loc shr_m].
    destruct m1 as [ | p1 | p1 ]; try lia.
    replace (ex + n <=? emax - prec) with true
      by (symmetry; apply Z.leb_le; unfold emax, prec, n; lia).
    exists p1, 0. rewrite !Z.add_0_r. change (2 ^ 0) with 1.
    unfold normal53.
    change (2 ^ 52) with 4503599627370496.
    change (2 ^ 53) with 9007199254740992.
    repeat split; try lia.
  - assert (Hm1 : m1 = 9007199254740992) by lia.
    rewrite Hm1.
    change (Zdigits2 9007199254740992) with 54.
    rewrite fexp_normal by lia.
    replace (54 + (ex + n) - 53 - (ex + n)) with 1 by lia.
    cbn [shr shr_record_of_loc shr_m iter_pos shr_1].
    replace (ex + n + 1 <=? emax - prec) with true
      by (symmetry; apply Z.leb_le; unfold emax, prec, n; lia).
    exists 4503599627370496%positive, 1.
    change (2 ^ 1) with 2.
    unfold normal53.
    change (2 ^ 52) with 4503599627370496.
    change (2 ^ 53) with 9007199254740992.
    repeat split; try lia.
Qed.

Lemma normal53_digits (m : positive) :
  normal53 m -> Zdigits2 (Zpos m) = 53.
Proof.
  intros H. apply Zdigits2_unique; [ lia | ].
  change (53 - 1) with 52. exact H.
Qed.

Lemma Zdigits2_between (z lo hi : Z) :
  0 <= lo -> 2 ^ lo <= z < 2 ^ hi -> lo + 1 <= Zdigits2 z <= hi.
Proof.
  intros Hlo [H1 H2].
  assert (Hz : 0 < z) by (pose proof (Z.pow_pos_nonneg 2 lo); lia).
  destruct z as [ | p | p ]; try lia.
  pose proof (digits2_pos_bounds p) as [B1 B2]. cbn [Zdigits2].
  set (d := Zpos (digits2_pos p)) in *. split.
  - destruct (Z_lt_le_dec lo d); [ lia | ].
    assert (2 ^ d <= 2 ^ lo) by (apply Z.pow_le_mono_r; lia). lia.
  - destruct (Z_lt_le_dec hi d); [ | lia ].
    destruct (Z_lt_le_dec hi 0).
    + rewrite (Z.pow_neg_r 2 hi) in H2 by lia. lia.
    + assert (2 ^ hi <= 2 ^ (d - 1)) by (apply Z.pow_le_mono_r; lia). lia.
Qed.

Lemma pos_iter_xO (m k : positive) :
  Zpos (Pos.iter xO m k) = Zpos m * 2 ^ Zpos k.
Proof.
  induction k as [ | k IH ] using Pos.peano_ind.
  - cbn [Pos.iter]. change (2 ^ 1) with 2. lia.
  - rewrite Pos.iter_succ, Pos2Z.inj_xO, IH, Pos2Z.inj_succ, Z.pow_succ_r by lia.
    ring.
Qed.

(** [float(a)] for [0 < a < 2^53] is [a] itself, normalised. *)
Lemma of_int_spec (a : Z) :
  0 < a < 2 ^ 53 ->
  exists m : positive,
    of_int a = S754_finite false m (Zdigits2 a - 53)
    /\ normal53 m
    /\ Zpos m = a * 2 ^ (53 - Zdigits2 a).
Proof.
  intros [Ha1 Ha2]. destruct a as [ | p | p ]; try lia.
  pose proof (digits2_pos_bounds p) as HB.
  assert (Hd : 1 <= Zdigits2 (Zpos p) <= 53)
    by (apply (Zdigits2_between (Zpos p) 0 53); [ lia | ];
        change (2 ^ 0) with 1; lia).
  cbn [Zdigits2] in Hd |- *. set (d := Zpos (digits2_pos p)) in *.
  unfold of_int, binary_normalize, binary_round.
  rewrite Z.add_0_r. fold d. rewrite fexp_normal by lia.
  assert (Hsh : exists mz : positive,
             shl_align p 0 (d - 53) = (mz, d - 53)
             /\ Zpos mz = Zpos p * 2 ^ (53 - d)).
  { unfold shl_align. rewrite Z.sub_0_r.
    destruct (d - 53) as [ | k | k ] eqn:E; try lia.
    - exists p. replace (53 - d) with 0 by lia. split; [ reflexivity | ].
      change (2 ^ 0) with 1. lia.
    - exists (Pos.iter xO p k). split; [ reflexivity | ].
      rewrite pos_iter_xO. f_equal. f_equal. lia. }
  destruct Hsh as (mz & -> & Hmz).
  assert (Hn : normal53 mz).
  { unfold normal53. rewrite Hmz.
    assert (2 ^ 52 = 2 ^ (d - 1) * 2 ^ (53 - d))
      by (rewrite <- Z.pow_add_r by lia; f_equal; lia).
    assert (2 ^ 53 = 2 ^ d * 2 ^ (53 - d))
      by (rewrite <- Z.pow_add_r by lia; f_equal; lia).
    assert (0 < 2 ^ (53 - d)) by (apply Z.pow_pos_nonneg; lia).
    nia. }
  pose proof (normal53_digits mz Hn) as Hdz.
  destruct (binary_round_aux_spec (Zpos mz) (d - 53) 1 0 loc_Exact)
    as (m & k & Heq & Hk & Hnm & Hacc);
    try lia; try reflexivity.
  rewrite Hdz in Heq, Hacc. change (53 - 53) with 0 in Heq, Hacc.
  change (2 ^ 0) with 1 in Hacc. pose proof Hn as Hn'.
  unfold normal53 in Hn, Hnm.
  change (2 ^ 52) with 4503599627370496 in *.
  change (2 ^ 53) with 9007199254740992 in *.
  assert (k = 0 \/ k = 1) as [-> | ->] by lia.
  - change (2 ^ 0) with 1 in Hacc.
    assert (m = mz) by lia. subst m.
    exists mz. rewrite Heq.
    split; [ f_equal; lia | split; [ exact Hn' | exact Hmz ] ].
  - change (2 ^ 1) with 2 in Hacc. lia.
Qed.

(** Division of two positive normal numbers, away from the subnormal
    and overflow ranges: a normal number within half a unit in the last
    place of the exact quotient. *)
Lemma SFdiv_normal_spec (m1 m2 : positive) (e1 e2 : Z) :
  normal53 m1 -> normal53 m2 -> -1000 <= e1 - e2 <= 1000 ->
  exists (m : positive) (j : Z),
    SFdiv prec emax (S754_finite false m1 e1) (S754_finite false m2 e2)
    = S754_finite false m (e1 - e2 - 53 + j)
    /\ normal53 m /\ 0 <= j <= 2
    /\ 2 * (Zpos m1 * 2 ^ 53) - 2 ^ j * Zpos m2
       <= 2 * Zpos m * (2 ^ j * Zpos m2)
       <= 2 * (Zpos m1 * 2 ^ 53) + 2 ^ j * Zpos m2.
Proof.
  intros H1 H2 He.
  unfold SFdiv, SFdiv_core_binary. cbv zeta.
  rewrite (normal53_digits m1 H1), (normal53_digits m2 H2).
  replace (53 + e1 - (53 + e2)) with (e1 - e2) by lia.
  rewrite fexp_normal by lia.
  rewrite Z.min_l by lia.
  replace (e1 - e2 - (e1 - e2 - 53)) with 53 by lia.
  rewrite Z.shiftl_mul_pow2 by lia.
  pose proof (Z_div_mod (Zpos m1 * 2 ^ 53) (Zpos m2) eq_refl) as Hdm.
  destruct (Z.div_eucl (Zpos m1 * 2 ^ 53) (Zpos m2)) as [q r].
  destruct Hdm as [Hdm Hr]. cbn [xorb].
  unfold normal53 in H1, H2.
  change (2 ^ 52) with 4503599627370496 in *.
  change (2 ^ 53) with 9007199254740992 in *.
  assert (Hq : 4503599627370496 <= q < 18014398509481984) by nia.
  assert (HD : 53 <= Zdigits2 q <= 54).
  { pose proof (Zdigits2_between q 52 54) as HH.
    change (2 ^ 52) with 4503599627370496 in HH.
    change (2 ^ 54) with 18014398509481984 in HH. lia. }
  destruct (binary_round_aux_spec q (e1 - e2 - 53) (Zpos m2) r
              (new_location (Zpos m2) r))
    as (m & k & Heq & Hk & Hnm & Hacc); try lia.
  { apply new_location_sem; lia. }
  exists m, (Zdigits2 q - 53 + k). rewrite Heq.
  split; [ f_equal; lia | ]. split; [ exact Hnm | ]. split; [ lia | ].
  replace (q * Zpos m2 + r) with (Zpos m1 * 9007199254740992) in Hacc by lia.
  rewrite Z.pow_add_r by lia.
  assert (Hp1 : 1 <= 2 ^ k) by (pose proof (Z.pow_pos_nonneg 2 k); lia).
  assert (Hp2 : 0 < 2 ^ (Zdigits2 q - 53))
    by (apply Z.pow_pos_nonneg; lia).
  set (P := 2 ^ (Zdigits2 q - 53)) in *. set (K := 2 ^ k) in *.
  nia.
Qed.

Lemma SFmul_normal_finite (m1 m2 : positive) (e1 e2 : Z) :
  normal53 m1 -> normal53 m2 -> -1000 <= e1 + e2 <= 900 ->
  exists (m : positive) (e : Z),
    SFmul prec emax (S754_finite false m1 e1) (S754_finite false m2 e2)
    = S754_finite false m e.
Proof.
  intros H1 H2 He. unfold SFmul. cbn [xorb].
  unfold normal53 in H1, H2.
  assert (HD : 104 + 1 <= Zdigits2 (Zpos (m1 * m2)) <= 106).
  { apply Zdigits2_between; [ lia | ]. rewrite Pos2Z.inj_mul.
    change (2 ^ 104) with (2 ^ 52 * 2 ^ 52).
    change (2 ^ 106) with (2 ^ 53 * 2 ^ 53).
    change (2 ^ 52) with 4503599627370496 in *.
    change (2 ^ 53) with 9007199254740992 in *. nia. }
  destruct (binary_round_aux_spec (Zpos (m1 * m2)) (e1 + e2) 1 0 loc_Exact)
    as (m & k & Heq & _); try lia; try reflexivity.
  exists m. eexists. exact Heq.
Qed.

(** [a / b] on positive ints below 2^53: never raises, and the quotient
    is a normal number within half a unit in the last place of the exact
    quotient. *)
Lemma truediv_spec (a b : Z) :
  0 < a < 2 ^ 53 -> 0 < b < 2 ^ 53 ->
  exists (m : positive) (j : Z),
    truediv a b
    = ok (S754_finite false m (Zdigits2 a - Zdigits2 b - 53 + j))
    /\ normal53 m /\ 0 <= j <= 2
    /\ 2 * (a * 2 ^ (53 + Zdigits2 b - Zdigits2 a)) - 2 ^ j * b
       <= 2 * Zpos m * (2 ^ j * b)
       <= 2 * (a * 2 ^ (53 + Zdigits2 b - Zdigits2 a)) + 2 ^ j * b.
Proof.
  intros Ha Hb. unfold truediv.
  destruct (Z.eqb_spec b 0) as [ | _ ]; [ lia | ].
  destruct (of_int_spec a Ha) as (ma & -> & Hna & Hma).
  destruct (of_int_spec b Hb) as (mb & -> & Hnb & Hmb).
  assert (Hda : 1 <= Zdigits2 a <= 53)
    by (apply (Zdigits2_between a 0 53); [ lia | ];
        change (2 ^ 0) with 1; lia).
  assert (Hdb : 1 <= Zdigits2 b <= 53)
    by (apply (Zdigits2_between b 0 53); [ lia | ];
        change (2 ^ 0) with 1; lia).
  set (da := Zdigits2 a) in *. set (db := Zdigits2 b) in *.
  destruct (SFdiv_normal_spec ma mb (da - 53) (db - 53) Hna Hnb)
    as (m & j & Heq & Hnm & Hj & Hacc); [ lia | ].
  exists m, j. rewrite Heq.
  split; [ do 2 f_equal; lia | ]. split; [ exact Hnm | ].
  split; [ exact Hj | ].
  rewrite Hma, Hmb in Hacc.
  set (Q := 2 ^ (53 - db)) in *.
  assert (HQ : 0 < Q) by (apply Z.pow_pos_nonneg; lia).
  assert (HT : 2 ^ (53 - da) * 2 ^ 53 = 2 ^ (53 + db - da) * Q).
  { unfold Q. rewrite <- !Z.pow_add_r by lia. f_equal. lia. }
  set (T := 2 ^ (53 + db - da)) in *.
  replace (a * 2 ^ (53 - da) * 2 ^ 53) with (a * T * Q) in Hacc
    by (rewrite <- !Z.mul_assoc, HT; ring).
  assert (HJ : 0 < 2 ^ j) by (apply Z.pow_pos_nonneg; lia).
  set (J := 2 ^ j) in *. nia.
Qed.

(** [int(a / b)] on positive ints below 2^51 is the integer quotient. *)
Lemma to_int_truediv (a b : Z) :
  0 < a < 2 ^ 51 -> 0 < b < 2 ^ 51 ->
  exists f : float, truediv a b = ok f /\ to_int f = ok (a / b).
Proof.
  intros Ha Hb.
  change (2 ^ 51) with 2251799813685248 in *.
  destruct (truediv_spec a b) as (m & j & Heq & Hnm & Hj & Hacc);
    try (change (2 ^ 53) with 9007199254740992; lia).
  assert (Hda : 1 <= Zdigits2 a <= 51)
    by (apply (Zdigits2_between a 0 51); [ lia | ];
        change (2 ^ 0) with 1; change (2 ^ 51) with 2251799813685248; lia).
  assert (Hbb : 2 ^ (Zdigits2 b - 1) <= b < 2 ^ Zdigits2 b)
    by (destruct b as [ | p | p ]; try lia; apply digits2_pos_bounds).
  assert (Hdb : 1 <= Zdigits2 b <= 51)
    by (apply (Zdigits2_between b 0 51); [ lia | ];
        change (2 ^ 0) with 1; change (2 ^ 51) with 2251799813685248; lia).
  set (da := Zdigits2 a) in *. set (db := Zdigits2 b) in *.
  eexists. split; [ exact Heq | ].
  cbn [to_int trunc cond_Zopp].
  set (s := 53 + db - da - j).
  replace (da - db - 53 + j) with (- s) by (unfold s; lia).
  assert (Hs : 0 < s) by (unfold s; lia).
  rewrite Z.shiftl_div_pow2, Z.opp_involutive by lia.
  assert (HT : 2 ^ (53 + db - da) = 2 ^ s * 2 ^ j).
  { rewrite <- Z.pow_add_r by lia. f_equal. unfold s. lia. }
  rewrite HT in Hacc.
  assert (HS : 2 ^ db <= 2 ^ s) by (apply Z.pow_le_mono_r; unfold s; lia).
  assert (HJ : 0 < 2 ^ j) by (apply Z.pow_pos_nonneg; lia).
  set (S := 2 ^ s) in *. set (J := 2 ^ j) in *.
  pose proof (Z.div_mod a b) as Hdm.
  pose proof (Z.mod_pos_bound a b) as Hrb.
  set (n := a / b) in *. set (rho := a mod b) in *.
  assert (Hacc' : 2 * (a * S) - b <= 2 * Zpos m * b <= 2 * (a * S) + b) by nia.
  assert (Hlo : n * S <= Zpos m) by nia.
  assert (Hhi : Zpos m < (n + 1) * S) by nia.
  f_equal. symmetry.
  apply (Z.div_unique_pos (Zpos m) S n (Zpos m - n * S)); lia.
Qed.

End PyFloatFacts.

(** * Facts on the page geometry *)

Module FitFacts.
Import PyFloat Fit FitSpec PyFloatFacts.

Lemma size_okb_spec (z : Z) : size_okb z = true <-> size_ok z.
Proof.
  unfold size_okb, size_ok. rewrite andb_true_iff, Z.ltb_lt, Z.ltb_lt.
  reflexivity.
Qed.

Lemma size_ok_digits (z : Z) : size_ok z -> 1 <= Zdigits2 z <= 31.
Proof.
  intros H. apply (Zdigits2_between z 0 31); [ lia | ].
  change (2 ^ 0) with 1. unfold size_ok in H. lia.
Qed.

Lemma size_ok_53 (z : Z) : size_ok z -> 0 < z < 2 ^ 53.
Proof.
  unfold size_ok. change (2 ^ 31) with 2147483648.
  change (2 ^ 53) with 9007199254740992. lia.
Qed.

Lemma of_int_size (z : Z) :
  size_ok z ->
  exists (m : positive) (e : Z),
    of_int z = S754_finite false m e /\ normal53 m /\ -52 <= e <= -22.
Proof.
  intros H. destruct (of_int_spec z (size_ok_53 z H)) as (m & Heq & Hn & _).
  pose proof (size_ok_digits z H).
  exists m, (Zdigits2 z - 53).
  split; [ exact Heq | split; [ exact Hn | lia ] ].
Qed.

(** The ratio of two sizes is a positive normal number. *)
Lemma ratio_size (a b : Z) :
  size_ok a -> size_ok b ->
  truediv a b = ok (ratio a b)
  /\ exists (m : positive) (e : Z),
       ratio a b = S754_finite false m e /\ normal53 m /\ -83 <= e <= -21.
Proof.
  intros Ha Hb.
  assert (Hr : truediv a b = ok (ratio a b)).
  { unfold truediv, ratio. destruct (Z.eqb_spec b 0) as [ -> | ];
      [ unfold size_ok in Hb; lia | reflexivity ]. }
  split; [ exact Hr | ].
  destruct (truediv_spec a b (size_ok_53 a Ha) (size_ok_53 b Hb))
    as (m & j & Heq & Hn & Hj & _).
  rewrite Hr in Heq. injection Heq as Heq.
  pose proof (size_ok_digits a Ha). pose proof (size_ok_digits b Hb).
  exists m. eexists. split; [ exact Heq | ]. split; [ exact Hn | lia ].
Qed.

Lemma fit_width_ok (vw pw ph : Z) :
  size_ok vw -> size_ok pw -> size_ok ph ->
  fit_width vw pw ph = QRect_of (width_rect vw pw ph).
Proof.
  intros Hv Hw Hh. unfold fit_width, width_rect.
  destruct (ratio_size pw ph Hw Hh) as (-> & m & e & Hr & Hn & He).
  cbn [rbind]. rewrite Hr. unfold fdiv. cbn [is_zero].
  destruct (of_int_size vw Hv) as (mv & ev & -> & Hnv & Hev).
  destruct (SFdiv_normal_spec mv m ev e Hnv Hn) as (m' & j & -> & _);
    [ lia | ].
  reflexivity.
Qed.

Lemma fit_height_ok (vh pw ph : Z) :
  size_ok vh -> size_ok pw -> size_ok ph ->
  fit_height vh pw ph = QRect_of (height_rect vh pw ph).
Proof.
  intros Hv Hw Hh. unfold fit_height, height_rect.
  destruct (ratio_size pw ph Hw Hh) as (-> & m & e & Hr & Hn & He).
  cbn [rbind]. rewrite Hr. unfold fmul.
  destruct (of_int_size vh Hv) as (mv & ev & -> & Hnv & Hev).
  destruct (SFmul_normal_finite m mv e ev Hn Hnv) as (m' & e' & ->);
    [ lia | ].
  reflexivity.
Qed.

(** On well-formed sizes the float arithmetic of [fitPage] never raises:
    what is left is the [QRect] constructor on the rectangle computed. *)
Lemma fitPage_ok (vw vh pw ph : Z) :
  size_ok vw -> size_ok vh -> size_ok pw -> size_ok ph ->
  fitPage vw vh pw ph
  = if needs_rotation (ratio vh vw) (ratio ph pw)
    then rbind (QRect_of (rotated_rect vw vh pw ph))
               (fun area => ok (mkFit true ph pw area))
    else rbind (QRect_of (fit_rect_float vw vh pw ph))
               (fun area => ok (mkFit false pw ph area)).
Proof.
  intros Hvw Hvh Hpw Hph. unfold fitPage, fit_rect_float, rotated_rect.
  destruct (ratio_size ph pw Hph Hpw) as (-> & _).
  destruct (ratio_size vh vw Hvh Hvw) as (-> & _).
  cbn [rbind].
  destruct (needs_rotation (ratio vh vw) (ratio ph pw));
    destruct (fgt (ratio vh vw) (ratio ph pw));
    rewrite ?fit_width_ok, ?fit_height_ok by assumption; reflexivity.
Qed.

Lemma is_cint_spec (z : Z) : is_cint z = true <-> - 2 ^ 31 <= z < 2 ^ 31.
Proof.
  unfold is_cint. rewrite andb_true_iff, Z.leb_le, Z.ltb_lt. reflexivity.
Qed.

Lemma is_cint_size (z : Z) : 0 <= z < 2 ^ 31 -> is_cint z = true.
Proof. intros H. apply is_cint_spec. lia. Qed.

Lemma is_cint_large (z : Z) : 2 ^ 31 <= z -> is_cint z = false.
Proof.
  intros H. apply not_true_is_false. intros E. apply is_cint_spec in E. lia.
Qed.

(** A rectangle at the origin with sides that are C [int]s is built. *)
Lemma QRect_of_ok (r : QRect) :
  rx r = 0 -> ry r = 0 -> 0 <= rw r < 2 ^ 31 -> 0 <= rh r < 2 ^ 31 ->
  QRect_of r = ok r.
Proof.
  destruct r as [x y w h]. cbn [rx ry rw rh]. intros -> -> Hw Hh.
  unfold QRect_of, QRect_init. cbn [rx ry rw rh].
  rewrite (is_cint_size w Hw), (is_cint_size h Hh). reflexivity.
Qed.

(** A side of 2^31 or more makes the constructor raise. *)
Lemma QRect_of_overflow (r : QRect) :
  2 ^ 31 <= rw r \/ 2 ^ 31 <= rh r -> QRect_of r = throw OverflowError.
Proof.
  destruct r as [x y w h]. cbn [rx ry rw rh]. intros H.
  unfold QRect_of, QRect_init. cbn [rx ry rw rh].
  destruct H as [H | H]; rewrite (is_cint_large _ H), ?andb_false_r;
    reflexivity.
Qed.

End FitFacts.

(** ** Unit ratios *)

Module FitMore.
Import PyFloat Fit FitSpec PyFloatFacts FitFacts.

Lemma of_int_0 : of_int 0 = S754_zero false.
Proof. reflexivity. Qed.

Lemma of_int_1 : of_int 1 = S754_finite false 4503599627370496 (-52).
Proof. reflexivity. Qed.

Lemma SFltb_irrefl (m : positive) (e : Z) :
  SFltb (S754_finite false m e) (S754_finite false m e) = false.
Proof.
  unfold SFltb, SFcompare. rewrite Z.compare_refl, Pos.compare_cont_refl.
  reflexivity.
Qed.

(** The ratio of a size to itself is the float 1.0. *)
Lemma ratio_same (a : Z) : size_ok a -> ratio a a = of_int 1.
Proof.
  intros Ha. unfold ratio.
  destruct (of_int_spec a (size_ok_53 a Ha)) as (m & -> & Hn & _).
  destruct (SFdiv_normal_spec m m (Zdigits2 a - 53) (Zdigits2 a - 53) Hn Hn)
    as (q & j & -> & Hq & Hj & Hacc); [ lia | ].
  rewrite of_int_1. unfold normal53 in Hn, Hq.
  change (2 ^ 52) with 4503599627370496 in *.
  change (2 ^ 53) with 9007199254740992 in *.
  assert (j = 0 \/ j = 1 \/ j = 2) as [ -> | [ -> | -> ] ] by lia.
  - change (2 ^ 0) with 1 in Hacc. nia.
  - change (2 ^ 1) with 2 in Hacc.
    assert (Zpos q = 4503599627370496) by nia.
    f_equal; [ lia | lia ].
  - change (2 ^ 2) with 4 in Hacc. nia.
Qed.

Lemma needs_rotation_unit_l (r : float) :
  needs_rotation (of_int 1) r = false.
Proof.
  unfold needs_rotation, flt, fgt. rewrite of_int_1, SFltb_irrefl.
  reflexivity.
Qed.

Lemma needs_rotation_unit_r (r : float) :
  needs_rotation r (of_int 1) = false.
Proof.
  unfold needs_rotation, flt, fgt. rewrite of_int_1, SFltb_irrefl.
  rewrite !andb_false_r. reflexivity.
Qed.

End FitMore.

(** ** The fit in exact arithmetic *)

Module FloatValue.
Import QArith Qpower Lqa.
Import PyFloat Fit FitSpec FitExact PyFloatFacts FitFacts.
Local Open Scope Q_scope.

Lemma pow2_pos (e : Z) : 0 < inject_Z 2 ^ e.
Proof. apply Qpower_0_lt. reflexivity. Qed.

Lemma pow2_add (a b : Z) :
  inject_Z 2 ^ (a + b) == inject_Z 2 ^ a * inject_Z 2 ^ b.
Proof. apply Qpower_plus. discriminate. Qed.

Lemma pow2_inject (n : Z) : (0 <= n)%Z -> inject_Z (2 ^ n) == inject_Z 2 ^ n.
Proof. apply Zpower_Qpower. Qed.

Lemma F2Q_pos (m : positive) (e : Z) : 0 < F2Q (S754_finite false m e).
Proof.
  cbn [F2Q cond_Zopp]. apply Qmult_lt_0_compat; [ reflexivity | apply pow2_pos ].
Qed.

(** [float(z)] stands for [z]. *)
Lemma F2Q_of_int (z : Z) :
  (0 < z < 2 ^ 53)%Z -> F2Q (of_int z) == inject_Z z.
Proof.
  intros Hz. destruct (of_int_spec z Hz) as (m & -> & _ & Hm).
  cbn [F2Q cond_Zopp]. rewrite Hm, inject_Z_mult.
  assert (Hd : (1 <= Zdigits2 z <= 53)%Z)
    by (apply (Zdigits2_between z 0 53); [ lia | ];
        change (2 ^ 0)%Z with 1%Z; lia).
  rewrite pow2_inject by lia.
  rewrite <- Qmult_assoc, <- pow2_add.
  replace (53 - Zdigits2 z + (Zdigits2 z - 53))%Z with 0%Z by lia.
  cbn. ring.
Qed.

(** From half a unit in the last place to the unit roundoff. *)
Lemma half_ulp_rounds (M A N : Q) :
  0 < A -> inject_Z 4503599627370496 <= M ->
  2 * M * A - A <= 2 * N -> 2 * N <= 2 * M * A + A ->
  rounds_to (M * A) N.
Proof.
  intros HA HM H1 H2. unfold rounds_to, u53.
  change (inject_Z 1) with 1. change (inject_Z 4503599627370496)
    with 4503599627370496 in HM.
  assert (HMA : 4503599627370496 * A <= M * A).
  { apply Qmult_le_compat_r; [ exact HM | lra ]. }
  split; lra.
Qed.

Lemma rounds_to_scale (y x T : Q) :
  0 < T -> rounds_to y x -> rounds_to (y * T) (x * T).
Proof.
  unfold rounds_to. change (inject_Z 1) with 1. intros HT [H1 H2]. split.
  - setoid_replace (y * T * (1 - u53))
      with (y * (1 - u53) * T) by ring.
    apply Qmult_le_compat_r; [ exact H1 | lra ].
  - setoid_replace (y * T * (1 + u53))
      with (y * (1 + u53) * T) by ring.
    apply Qmult_le_compat_r; [ exact H2 | lra ].
Qed.

Lemma rounds_to_eq (y y' x x' : Q) :
  y == y' -> x == x' -> rounds_to y x -> rounds_to y' x'.
Proof.
  unfold rounds_to. intros Hy Hx [H1 H2]. rewrite <- Hy, <- Hx.
  split; assumption.
Qed.

Lemma pow2_53 : inject_Z 2 ^ 53 == 9007199254740992.
Proof. reflexivity. Qed.

(** Division of two positive normal numbers rounds the exact quotient. *)
Lemma SFdiv_rounds (m1 m2 : positive) (e1 e2 : Z) :
  normal53 m1 -> normal53 m2 -> (-1000 <= e1 - e2 <= 1000)%Z ->
  exists (m : positive) (e : Z),
    SFdiv prec emax (S754_finite false m1 e1) (S754_finite false m2 e2)
    = S754_finite false m e
    /\ normal53 m /\ (e1 - e2 - 53 <= e <= e1 - e2 - 51)%Z
    /\ rounds_to (F2Q (S754_finite false m e) * F2Q (S754_finite false m2 e2))
                 (F2Q (S754_finite false m1 e1)).
Proof.
  intros H1 H2 He.
  destruct (SFdiv_normal_spec m1 m2 e1 e2 H1 H2 He)
    as (m & j & Heq & Hn & Hj & Hlo & Hhi).
  exists m, (e1 - e2 - 53 + j)%Z.
  split; [ exact Heq | ]. split; [ exact Hn | ]. split; [ lia | ].
  cbn [F2Q cond_Zopp].
  rewrite Zle_Qle in Hlo, Hhi. unfold Z.sub in Hlo.
  rewrite inject_Z_plus, inject_Z_opp, !inject_Z_mult in Hlo.
  rewrite inject_Z_plus, !inject_Z_mult in Hhi.
  change (2 ^ 53)%Z with 9007199254740992%Z in Hlo, Hhi.
  change (inject_Z 9007199254740992) with 9007199254740992 in Hlo, Hhi.
  change (inject_Z 2) with 2 in Hlo, Hhi.
  assert (HJ : 0 < inject_Z (2 ^ j)).
  { rewrite pow2_inject by lia. apply pow2_pos. }
  assert (HM2 : 0 < inject_Z (Zpos m2)) by reflexivity.
  assert (HM : inject_Z 4503599627370496 <= inject_Z (Zpos m)).
  { rewrite <- Zle_Qle. unfold normal53 in Hn.
    change (2 ^ 52)%Z with 4503599627370496%Z in Hn. lia. }
  set (M := inject_Z (Zpos m)) in *. set (M1 := inject_Z (Zpos m1)) in *.
  set (M2 := inject_Z (Zpos m2)) in *. set (J := inject_Z (2 ^ j)) in *.
  set (P := inject_Z 2 ^ (e1 - e2 - 53)). set (E2 := inject_Z 2 ^ e2).
  assert (HP : 0 < P) by apply pow2_pos.
  assert (HE2 : 0 < E2) by apply pow2_pos.
  assert (Hpj : inject_Z 2 ^ (e1 - e2 - 53 + j) == P * J).
  { rewrite pow2_add. unfold J. rewrite pow2_inject by lia. reflexivity. }
  assert (Hpe : inject_Z 2 ^ e1 == P * E2 * 9007199254740992).
  { replace e1 with (e1 - e2 - 53 + e2 + 53)%Z at 1 by lia.
    rewrite !pow2_add, pow2_53. reflexivity. }
  apply (rounds_to_eq (M * (J * M2) * (P * E2)) _
                      (M1 * 9007199254740992 * (P * E2)) _).
  - rewrite Hpj. ring.
  - rewrite Hpe. ring.
  - apply rounds_to_scale; [ apply Qmult_lt_0_compat; assumption | ].
    apply half_ulp_rounds.
    + apply Qmult_lt_0_compat; assumption.
    + exact HM.
    + lra.
    + lra.
Qed.

(** Multiplication of two positive normal numbers rounds the exact
    product. *)
Lemma SFmul_rounds (m1 m2 : positive) (e1 e2 : Z) :
  normal53 m1 -> normal53 m2 -> (-1000 <= e1 + e2 <= 900)%Z ->
  exists (m : positive) (e : Z),
    SFmul prec emax (S754_finite false m1 e1) (S754_finite false m2 e2)
    = S754_finite false m e
    /\ rounds_to (F2Q (S754_finite false m e))
                 (F2Q (S754_finite false m1 e1)
                  * F2Q (S754_finite false m2 e2)).
Proof.
  intros H1 H2 He. unfold SFmul. cbn [xorb].
  assert (HD : (104 + 1 <= Zdigits2 (Zpos (m1 * m2)) <= 106)%Z).
  { unfold normal53 in H1, H2.
    apply Zdigits2_between; [ lia | ]. rewrite Pos2Z.inj_mul.
    change (2 ^ 104)%Z with (2 ^ 52 * 2 ^ 52)%Z.
    change (2 ^ 106)%Z with (2 ^ 53 * 2 ^ 53)%Z.
    change (2 ^ 52)%Z with 4503599627370496%Z in *.
    change (2 ^ 53)%Z with 9007199254740992%Z in *. nia. }
  destruct (binary_round_aux_spec (Zpos (m1 * m2)) (e1 + e2) 1 0 loc_Exact)
    as (m & k & Heq & Hk & Hn & Hlo & Hhi); try lia; try reflexivity.
  set (n := (Zdigits2 (Zpos (m1 * m2)) - 53)%Z) in *.
  exists m. eexists. split; [ exact Heq | ].
  assert (Hn0 : (0 <= n)%Z) by (unfold n; lia).
  assert (Hlo' : (2 * (Zpos m * 2 ^ k) * 2 ^ n + - 2 ^ n
                  <= 2 * (Zpos m1 * Zpos m2))%Z) by lia.
  assert (Hhi' : (2 * (Zpos m1 * Zpos m2)
                  <= 2 * (Zpos m * 2 ^ k) * 2 ^ n + 2 ^ n)%Z) by lia.
  rewrite Zle_Qle in Hlo', Hhi'.
  rewrite inject_Z_plus, inject_Z_opp, !inject_Z_mult in Hlo'.
  rewrite inject_Z_plus, !inject_Z_mult in Hhi'.
  change (inject_Z 2) with 2 in Hlo', Hhi'.
  cbn [F2Q cond_Zopp].
  assert (HA : 0 < inject_Z (2 ^ n)).
  { rewrite pow2_inject by lia. apply pow2_pos. }
  assert (HK : inject_Z 1 <= inject_Z (2 ^ k)).
  { rewrite <- Zle_Qle. pose proof (Z.pow_pos_nonneg 2 k). lia. }
  assert (HM : inject_Z 4503599627370496 <= inject_Z (Zpos m)).
  { rewrite <- Zle_Qle. unfold normal53 in Hn.
    change (2 ^ 52)%Z with 4503599627370496%Z in Hn. lia. }
  change (inject_Z 1) with 1 in HK.
  change (inject_Z 4503599627370496) with 4503599627370496 in HM.
  set (M := inject_Z (Zpos m)) in *. set (M1 := inject_Z (Zpos m1)) in *.
  set (M2 := inject_Z (Zpos m2)) in *. set (K := inject_Z (2 ^ k)) in *.
  set (A := inject_Z (2 ^ n)) in *. set (T := inject_Z 2 ^ (e1 + e2)).
  assert (HT : 0 < T) by apply pow2_pos.
  assert (Hpe : inject_Z 2 ^ (e1 + e2 + n + k) == T * A * K).
  { rewrite (pow2_add (e1 + e2 + n) k), (pow2_add (e1 + e2) n).
    unfold A, K. rewrite !pow2_inject by lia. reflexivity. }
  assert (Hp12 : inject_Z 2 ^ e1 * inject_Z 2 ^ e2 == T).
  { unfold T. rewrite pow2_add. reflexivity. }
  apply (rounds_to_eq (M * K * A * T) _ (M1 * M2 * T) _).
  - rewrite Hpe. ring.
  - rewrite <- Hp12. ring.
  - apply rounds_to_scale; [ exact HT | ].
    apply half_ulp_rounds.
    + exact HA.
    + change (inject_Z 4503599627370496) with 4503599627370496.
      assert (0 <= (K - 1) * M) by (apply Qmult_le_0_compat; lra). lra.
    + lra.
    + lra.
Qed.

(** [int(f)] of a positive float: the integer part of its value. *)
Lemma trunc_F2Q (m : positive) (e : Z) :
  (0 <= trunc (S754_finite false m e))%Z
  /\ inject_Z (trunc (S754_finite false m e)) <= F2Q (S754_finite false m e)
  /\ F2Q (S754_finite false m e)
     < inject_Z (trunc (S754_finite false m e)) + 1.
Proof.
  cbn [trunc F2Q cond_Zopp].
  destruct (Z_lt_le_dec e 0) as [Hneg | Hpos].
  - rewrite Z.shiftl_div_pow2 by lia.
    set (s := (- e)%Z). set (D := (2 ^ s)%Z).
    assert (HD : (0 < D)%Z) by (apply Z.pow_pos_nonneg; unfold s; lia).
    pose proof (Z.div_mod (Zpos m) D ltac:(lia)) as Hdm.
    pose proof (Z.mod_pos_bound (Zpos m) D HD) as Hr.
    set (t := (Zpos m / D)%Z) in *. set (r := (Zpos m mod D)%Z) in *.
    assert (Ht : (0 <= t)%Z) by (apply Z.div_pos; lia).
    assert (He : inject_Z 2 ^ e == / inject_Z D).
    { replace e with (- s)%Z by (unfold s; lia).
      rewrite Qpower_opp. unfold D. rewrite pow2_inject by (unfold s; lia).
      reflexivity. }
    assert (HDq : 0 < inject_Z D)
      by (change 0 with (inject_Z 0); rewrite <- Zlt_Qlt; exact HD).
    split; [ exact Ht | ].
    rewrite He. fold (inject_Z (Zpos m) / inject_Z D).
    split.
    + apply Qle_shift_div_l; [ exact HDq | ].
      rewrite <- inject_Z_mult, <- Zle_Qle. nia.
    + apply Qlt_shift_div_r; [ exact HDq | ].
      change 1 with (inject_Z 1).
      rewrite <- inject_Z_plus, <- inject_Z_mult, <- Zlt_Qlt. nia.
  - rewrite Z.shiftl_mul_pow2 by lia.
    assert (HP : (0 < 2 ^ e)%Z) by (apply Z.pow_pos_nonneg; lia).
    split; [ lia | ].
    rewrite inject_Z_mult, pow2_inject by lia. split; lra.
Qed.

Lemma F2Q_lt_exp (m1 m2 : positive) (e1 e2 : Z) :
  normal53 m1 -> normal53 m2 -> (e1 < e2)%Z ->
  F2Q (S754_finite false m1 e1) < F2Q (S754_finite false m2 e2).
Proof.
  intros H1 H2 He. cbn [F2Q cond_Zopp].
  assert (Hp : inject_Z 2 ^ e2 == inject_Z (2 ^ (e2 - e1)) * inject_Z 2 ^ e1).
  { rewrite pow2_inject by lia. rewrite <- pow2_add. f_equiv. lia. }
  rewrite Hp, Qmult_assoc.
  apply Qmult_lt_compat_r; [ apply pow2_pos | ].
  rewrite <- inject_Z_mult, <- Zlt_Qlt.
  assert (2 ^ 1 <= 2 ^ (e2 - e1))%Z by (apply Z.pow_le_mono_r; lia).
  unfold normal53 in H1, H2.
  change (2 ^ 52)%Z with 4503599627370496%Z in *.
  change (2 ^ 53)%Z with 9007199254740992%Z in *.
  change (2 ^ 1)%Z with 2%Z in *. nia.
Qed.

(** On positive normal numbers the float comparison is the comparison
    of the values. *)
Lemma SFltb_F2Q (m1 m2 : positive) (e1 e2 : Z) :
  normal53 m1 -> normal53 m2 ->
  SFltb (S754_finite false m1 e1) (S754_finite false m2 e2) = true
  <-> F2Q (S754_finite false m1 e1) < F2Q (S754_finite false m2 e2).
Proof.
  intros H1 H2. unfold SFltb, SFcompare.
  destruct (Z.compare_spec e1 e2) as [ -> | Hlt | Hgt ].
  - change (Pos.compare_cont Eq m1 m2) with (Pos.compare m1 m2).
    cbn [F2Q cond_Zopp].
    destruct (Pos.compare_spec m1 m2) as [ -> | Hm | Hm ].
    + split; [ discriminate | intros H; lra ].
    + split; [ intros _ | reflexivity ].
      apply Qmult_lt_compat_r; [ apply pow2_pos | ].
      rewrite <- Zlt_Qlt. lia.
    + split; [ discriminate | ].
      intros H. exfalso.
      assert (inject_Z (Zpos m2) * inject_Z 2 ^ e2
              < inject_Z (Zpos m1) * inject_Z 2 ^ e2).
      { apply Qmult_lt_compat_r; [ apply pow2_pos | ].
        rewrite <- Zlt_Qlt. lia. }
      lra.
  - split; [ intros _ | reflexivity ]. apply F2Q_lt_exp; assumption.
  - split; [ discriminate | ].
    intros H. exfalso.
    pose proof (F2Q_lt_exp m2 m1 e2 e1 H2 H1 Hgt). lra.
Qed.

Ltac nonneg_product :=
  repeat (apply Qmult_le_0_compat); lra.

Ltac pos_product :=
  repeat (apply Qmult_lt_0_compat); lra.

(** The fit to the width in exact arithmetic: [i], [v] and [r] are the
    rounded ratios [d/c], [b/a] and [c/d], and [y] is the rounded
    quotient [a/r]. *)
Lemma width_chain (a b c d i v r y : Q) :
  1 <= a < 2147483648 -> 1 <= b < 2147483648 ->
  1 <= c < 2147483648 -> 1 <= d < 2147483648 ->
  0 < i -> 0 < v -> 0 < r -> 0 < y ->
  rounds_to (i * c) d -> rounds_to (v * a) b ->
  rounds_to (r * d) c -> rounds_to (y * r) a ->
  i < v ->
  y < b + 1 /\ c * y < a * d + c /\ a * d - c < c * y.
Proof.
  unfold rounds_to. change (inject_Z 1) with 1.
  intros Ha Hb Hc Hd Hi Hv Hr Hy [Hi1 Hi2] [Hv1 Hv2] [Hr1 Hr2] [Hy1 Hy2] Hiv.
  set (al := 1 - u53) in *. set (be := 1 + u53) in *.
  assert (Hal : 0 < al) by (unfold al, u53; lra).
  assert (Hbe : 0 < be) by (unfold be, u53; lra).
  assert (S1 : c * (al * y) <= r * d * be * (al * y))
    by (apply Qmult_le_compat_r; [ exact Hr2 | nonneg_product ]).
  assert (S2 : y * r * al * (be * d) <= a * (be * d))
    by (apply Qmult_le_compat_r; [ exact Hy1 | nonneg_product ]).
  assert (S3 : d * (al * a) <= i * c * be * (al * a))
    by (apply Qmult_le_compat_r; [ exact Hi2 | nonneg_product ]).
  assert (S4 : i * (al * be * a * c) < v * (al * be * a * c))
    by (apply Qmult_lt_compat_r; [ pos_product | exact Hiv ]).
  assert (S5 : v * a * al * (be * c) <= b * (be * c))
    by (apply Qmult_le_compat_r; [ exact Hv1 | nonneg_product ]).
  assert (S8 : a * (al * d) <= y * r * be * (al * d))
    by (apply Qmult_le_compat_r; [ exact Hy2 | nonneg_product ]).
  assert (S9 : r * d * al * (be * y) <= c * (be * y))
    by (apply Qmult_le_compat_r; [ exact Hr1 | nonneg_product ]).
  assert (K1 : al * (c * y) <= be * (a * d)) by lra.
  assert (K2 : al * (a * d) < be * (b * c)) by lra.
  assert (K3 : al * (a * d) <= be * (c * y)) by lra.
  assert (S6 : 0 <= (al * al * (b + 1) - be * be * b) * c)
    by (apply Qmult_le_0_compat; unfold al, be, u53; lra).
  assert (S7 : 0 <= (al * al - 2 * u53 * be * b) * c)
    by (apply Qmult_le_0_compat; unfold al, be, u53; lra).
  assert (S10 : 0 <= (al - 2 * u53 * b) * c)
    by (apply Qmult_le_0_compat; unfold al, u53; lra).
  assert (G1 : y * c < (b + 1) * c) by (unfold al, be, u53 in *; lra).
  split; [ apply (Qmult_lt_r _ _ c); [ lra | exact G1 ] | ].
  unfold al, be, u53 in *. split; lra.
Qed.

(** The fit to the height in exact arithmetic: [x] is the rounded
    product [r * b]. *)
Lemma height_chain (a b c d i v r x : Q) :
  1 <= a < 2147483648 -> 1 <= b < 2147483648 ->
  1 <= c < 2147483648 -> 1 <= d < 2147483648 ->
  0 < i -> 0 < v -> 0 < r -> 0 < x ->
  rounds_to (i * c) d -> rounds_to (v * a) b ->
  rounds_to (r * d) c -> rounds_to x (r * b) ->
  v <= i ->
  x < a + 1 /\ d * x < c * b + d /\ c * b - d < d * x.
Proof.
  unfold rounds_to. change (inject_Z 1) with 1.
  intros Ha Hb Hc Hd Hi Hv Hr Hx [Hi1 Hi2] [Hv1 Hv2] [Hr1 Hr2] [Hx1 Hx2] Hvi.
  set (al := 1 - u53) in *. set (be := 1 + u53) in *.
  assert (Hal : 0 < al) by (unfold al, u53; lra).
  assert (Hbe : 0 < be) by (unfold be, u53; lra).
  assert (S1 : x * al * (al * d) <= r * b * (al * d))
    by (apply Qmult_le_compat_r; [ exact Hx1 | nonneg_product ]).
  assert (S2 : r * d * al * b <= c * b)
    by (apply Qmult_le_compat_r; [ exact Hr1 | lra ]).
  assert (S3 : b * (al * c) <= v * a * be * (al * c))
    by (apply Qmult_le_compat_r; [ exact Hv2 | nonneg_product ]).
  assert (S4 : v * (al * be * a * c) <= i * (al * be * a * c))
    by (apply Qmult_le_compat_r; [ exact Hvi | nonneg_product ]).
  assert (S5 : i * c * al * (be * a) <= d * (be * a))
    by (apply Qmult_le_compat_r; [ exact Hi1 | nonneg_product ]).
  assert (S8 : c * b <= r * d * be * b)
    by (apply Qmult_le_compat_r; [ exact Hr2 | lra ]).
  assert (S9 : r * b * (be * d) <= x * be * (be * d))
    by (apply Qmult_le_compat_r; [ exact Hx2 | nonneg_product ]).
  assert (K1 : al * al * (d * x) <= b * c) by lra.
  assert (K2 : al * (b * c) <= be * (a * d)) by lra.
  assert (K3 : b * c <= be * be * (d * x)) by lra.
  assert (S6 : 0 < (al * al * al * (a + 1) - be * a) * d)
    by (apply Qmult_lt_0_compat; unfold al, be, u53; lra).
  assert (S7 : 0 < (al * al * al - (1 - al * al) * be * a) * d)
    by (apply Qmult_lt_0_compat; unfold al, be, u53; lra).
  assert (S10 : 0 < (al * be - (be * be - 1) * a) * d)
    by (apply Qmult_lt_0_compat; unfold al, be, u53; lra).
  assert (G1 : x * d < (a + 1) * d) by (unfold al, be, u53 in *; lra).
  split; [ apply (Qmult_lt_r _ _ d); [ lra | exact G1 ] | ].
  unfold al, be, u53 in *. split; lra.
Qed.

Lemma size_ok_Q (z : Z) :
  size_ok z -> 1 <= inject_Z z < 2147483648.
Proof.
  unfold size_ok. change (2 ^ 31)%Z with 2147483648%Z. intros H.
  change 1 with (inject_Z 1).
  change 2147483648 with (inject_Z 2147483648).
  rewrite <- Zle_Qle, <- Zlt_Qlt. lia.
Qed.

Lemma of_int_value (z : Z) :
  size_ok z ->
  exists (m : positive) (e : Z),
    of_int z = S754_finite false m e /\ normal53 m /\ (-52 <= e <= -22)%Z
    /\ F2Q (S754_finite false m e) == inject_Z z.
Proof.
  intros H. destruct (of_int_size z H) as (m & e & Heq & Hn & He).
  exists m, e. split; [ exact Heq | ]. split; [ exact Hn | ].
  split; [ lia | ].
  rewrite <- Heq. apply F2Q_of_int. apply size_ok_53. exact H.
Qed.

(** The float ratio of two sizes rounds their exact ratio. *)
Lemma ratio_rounds (a b : Z) :
  size_ok a -> size_ok b ->
  exists (m : positive) (e : Z),
    ratio a b = S754_finite false m e /\ normal53 m /\ (-83 <= e <= -21)%Z
    /\ rounds_to (F2Q (S754_finite false m e) * inject_Z b) (inject_Z a).
Proof.
  intros Ha Hb. unfold ratio.
  destruct (of_int_value a Ha) as (ma & ea & -> & Hna & Hea & Hva).
  destruct (of_int_value b Hb) as (mb & eb & -> & Hnb & Heb & Hvb).
  destruct (SFdiv_rounds ma mb ea eb Hna Hnb) as (m & e & -> & Hn & He & Hr);
    [ lia | ].
  exists m, e. split; [ reflexivity | ]. split; [ exact Hn | ].
  split; [ lia | ].
  eapply rounds_to_eq; [ | | exact Hr ].
  - rewrite Hvb. reflexivity.
  - exact Hva.
Qed.

(** The float [vw / (pw/ph)] of the fit to the width. *)
Lemma width_value (vw : Z) (mr : positive) (er : Z) :
  size_ok vw -> normal53 mr -> (-83 <= er <= -21)%Z ->
  exists (m : positive) (e : Z),
    SFdiv prec emax (of_int vw) (S754_finite false mr er)
    = S754_finite false m e
    /\ rounds_to (F2Q (S754_finite false m e) * F2Q (S754_finite false mr er))
                 (inject_Z vw).
Proof.
  intros Hv Hn He.
  destruct (of_int_value vw Hv) as (mv & ev & -> & Hnv & Hev & Hvv).
  destruct (SFdiv_rounds mv mr ev er Hnv Hn) as (m & e & -> & _ & _ & Hr);
    [ lia | ].
  exists m, e. split; [ reflexivity | ].
  eapply rounds_to_eq; [ reflexivity | exact Hvv | exact Hr ].
Qed.

(** The float [(pw/ph) * vh] of the fit to the height. *)
Lemma height_value (vh : Z) (mr : positive) (er : Z) :
  size_ok vh -> normal53 mr -> (-83 <= er <= -21)%Z ->
  exists (m : positive) (e : Z),
    fmul (S754_finite false mr er) (of_int vh) = S754_finite false m e
    /\ rounds_to (F2Q (S754_finite false m e))
                 (F2Q (S754_finite false mr er) * inject_Z vh).
Proof.
  intros Hv Hn He. unfold fmul.
  destruct (of_int_value vh Hv) as (mv & ev & -> & Hnv & Hev & Hvv).
  destruct (SFmul_rounds mr mv er ev Hn Hnv) as (m & e & -> & Hr); [ lia | ].
  exists m, e. split; [ reflexivity | ].
  eapply rounds_to_eq; [ reflexivity | | exact Hr ].
  rewrite Hvv. reflexivity.
Qed.

(** The rectangle of the fit to the width lies in the viewport whenever
    the viewport ratio exceeds the image ratio, and its height is the
    exact [vw * ph / pw] up to one unit. *)
Lemma width_rect_exact (vw vh pw ph : Z) :
  size_ok vw -> size_ok vh -> size_ok pw -> size_ok ph ->
  fgt (ratio vh vw) (ratio ph pw) = true ->
  rw (width_rect vw pw ph) = vw
  /\ (0 <= rh (width_rect vw pw ph) <= vh)%Z
  /\ (vw * ph - 2 * pw < rh (width_rect vw pw ph) * pw < vw * ph + pw)%Z.
Proof.
  intros Hvw Hvh Hpw Hph Hgt. unfold width_rect. cbn [rw rh].
  destruct (ratio_rounds ph pw Hph Hpw) as (mi & ei & Hi & Hni & _ & Hri).
  destruct (ratio_rounds vh vw Hvh Hvw) as (mv & ev & Hv & Hnv & _ & Hrv).
  destruct (ratio_rounds pw ph Hpw Hph) as (mr & er & Hr & Hnr & Her & Hrr).
  rewrite Hr.
  destruct (width_value vw mr er Hvw Hnr Her) as (my & ey & -> & Hry).
  unfold fgt in Hgt. rewrite Hi, Hv in Hgt.
  apply (SFltb_F2Q mi mv ei ev Hni Hnv) in Hgt.
  destruct (trunc_F2Q my ey) as (Ht0 & Ht1 & Ht2).
  set (t := trunc (S754_finite false my ey)) in *.
  destruct (width_chain (inject_Z vw) (inject_Z vh) (inject_Z pw) (inject_Z ph)
              (F2Q (S754_finite false mi ei)) (F2Q (S754_finite false mv ev))
              (F2Q (S754_finite false mr er)) (F2Q (S754_finite false my ey)))
    as (G1 & G2 & G3);
    try (apply size_ok_Q; assumption); try apply F2Q_pos; try assumption.
  pose proof (size_ok_Q pw Hpw) as Hc.
  split; [ reflexivity | ].
  assert (Q1 : inject_Z t < inject_Z (vh + 1)).
  { rewrite inject_Z_plus. change (inject_Z 1) with 1. lra. }
  assert (Q2 : inject_Z (t * pw) < inject_Z (vw * ph + pw)).
  { rewrite inject_Z_plus, !inject_Z_mult.
    assert (inject_Z pw * inject_Z t
            <= inject_Z pw * F2Q (S754_finite false my ey))
      by (apply Qmult_le_l; [ lra | exact Ht1 ]).
    lra. }
  assert (Q3 : inject_Z (vw * ph + - (2 * pw)) < inject_Z (t * pw)).
  { rewrite inject_Z_plus, inject_Z_opp, !inject_Z_mult.
    change (inject_Z 2) with 2.
    assert (inject_Z pw * F2Q (S754_finite false my ey)
            < inject_Z pw * (inject_Z t + 1))
      by (apply Qmult_lt_l; [ lra | exact Ht2 ]).
    lra. }
  rewrite <- Zlt_Qlt in Q1, Q2, Q3. lia.
Qed.

(** The rectangle of the fit to the height lies in the viewport whenever
    the viewport ratio does not exceed the image ratio, and its width is
    the exact [vh * pw / ph] up to one unit. *)
Lemma height_rect_exact (vw vh pw ph : Z) :
  size_ok vw -> size_ok vh -> size_ok pw -> size_ok ph ->
  fgt (ratio vh vw) (ratio ph pw) = false ->
  rh (height_rect vh pw ph) = vh
  /\ (0 <= rw (height_rect vh pw ph) <= vw)%Z
  /\ (vh * pw - 2 * ph < rw (height_rect vh pw ph) * ph < vh * pw + ph)%Z.
Proof.
  intros Hvw Hvh Hpw Hph Hgt. unfold height_rect. cbn [rw rh].
  destruct (ratio_rounds ph pw Hph Hpw) as (mi & ei & Hi & Hni & _ & Hri).
  destruct (ratio_rounds vh vw Hvh Hvw) as (mv & ev & Hv & Hnv & _ & Hrv).
  destruct (ratio_rounds pw ph Hpw Hph) as (mr & er & Hr & Hnr & Her & Hrr).
  rewrite Hr.
  destruct (height_value vh mr er Hvh Hnr Her) as (mx & ex & -> & Hrx).
  unfold fgt in Hgt. rewrite Hi, Hv in Hgt.
  assert (Hle : F2Q (S754_finite false mv ev) <= F2Q (S754_finite false mi ei)).
  { destruct (Qlt_le_dec (F2Q (S754_finite false mi ei))
                         (F2Q (S754_finite false mv ev))) as [Hlt | Hle];
      [ | exact Hle ].
    apply (SFltb_F2Q mi mv ei ev Hni Hnv) in Hlt. congruence. }
  destruct (trunc_F2Q mx ex) as (Ht0 & Ht1 & Ht2).
  set (t := trunc (S754_finite false mx ex)) in *.
  destruct (height_chain (inject_Z vw) (inject_Z vh) (inject_Z pw) (inject_Z ph)
              (F2Q (S754_finite false mi ei)) (F2Q (S754_finite false mv ev))
              (F2Q (S754_finite false mr er)) (F2Q (S754_finite false mx ex)))
    as (G1 & G2 & G3);
    try (apply size_ok_Q; assumption); try apply F2Q_pos; try assumption.
  pose proof (size_ok_Q ph Hph) as Hd.
  split; [ reflexivity | ].
  assert (Q1 : inject_Z t < inject_Z (vw + 1)).
  { rewrite inject_Z_plus. change (inject_Z 1) with 1. lra. }
  assert (Q2 : inject_Z (t * ph) < inject_Z (vh * pw + ph)).
  { rewrite inject_Z_plus, !inject_Z_mult.
    assert (inject_Z ph * inject_Z t
            <= inject_Z ph * F2Q (S754_finite false mx ex))
      by (apply Qmult_le_l; [ lra | exact Ht1 ]).
    lra. }
  assert (Q3 : inject_Z (vh * pw + - (2 * ph)) < inject_Z (t * ph)).
  { rewrite inject_Z_plus, inject_Z_opp, !inject_Z_mult.
    change (inject_Z 2) with 2.
    assert (inject_Z ph * F2Q (S754_finite false mx ex)
            < inject_Z ph * (inject_Z t + 1))
      by (apply Qmult_lt_l; [ lra | exact Ht2 ]).
    lra. }
  rewrite <- Zlt_Qlt in Q1, Q2, Q3. lia.
Qed.

(** With a rotation the comparison of line 91 is decided by the viewport
    alone. *)
Lemma rotation_decides_branch (vw vh pw ph : Z) :
  size_ok vw -> size_ok vh -> size_ok pw -> size_ok ph ->
  needs_rotation (ratio vh vw) (ratio ph pw) = true ->
  fgt (ratio vh vw) (ratio ph pw) = fgt (ratio vh vw) (of_int 1)
  /\ flt (ratio vh vw) (of_int 1) = negb (fgt (ratio vh vw) (of_int 1)).
Proof.
  intros Hvw Hvh Hpw Hph Hrot.
  destruct (ratio_rounds ph pw Hph Hpw) as (mi & ei & Hi & Hni & _ & _).
  destruct (ratio_rounds vh vw Hvh Hvw) as (mv & ev & Hv & Hnv & _ & _).
  rewrite Hi, Hv in Hrot |- *.
  unfold needs_rotation, flt, fgt in Hrot |- *.
  rewrite FitMore.of_int_1 in Hrot |- *.
  assert (Hn1 : normal53 4503599627370496)
    by (unfold normal53; split; [ discriminate | reflexivity ]).
  set (one := S754_finite false 4503599627370496 (-52)) in *.
  set (V := S754_finite false mv ev) in *.
  set (I := S754_finite false mi ei) in *.
  pose proof (SFltb_F2Q mv 4503599627370496 ev (-52) Hnv Hn1) as HV1.
  pose proof (SFltb_F2Q 4503599627370496 mv (-52) ev Hn1 Hnv) as H1V.
  pose proof (SFltb_F2Q mi 4503599627370496 ei (-52) Hni Hn1) as HI1.
  pose proof (SFltb_F2Q 4503599627370496 mi (-52) ei Hn1 Hni) as H1I.
  pose proof (SFltb_F2Q mi mv ei ev Hni Hnv) as HIV.
  fold one V I in HV1, H1V, HI1, H1I, HIV.
  apply orb_true_iff in Hrot as [Hrot | Hrot];
    apply andb_true_iff in Hrot as [Ha Hb].
  - apply HV1 in Ha. apply H1I in Hb.
    assert (E1 : SFltb one V = false).
    { apply not_true_is_false. intros E. apply H1V in E. lra. }
    assert (E2 : SFltb I V = false).
    { apply not_true_is_false. intros E. apply HIV in E. lra. }
    assert (E3 : SFltb V one = true) by (apply HV1; exact Ha).
    rewrite E1, E2, E3. split; reflexivity.
  - apply H1V in Ha. apply HI1 in Hb.
    assert (E1 : SFltb one V = true) by (apply H1V; exact Ha).
    assert (E2 : SFltb I V = true) by (apply HIV; lra).
    assert (E3 : SFltb V one = false).
    { apply not_true_is_false. intros E. apply HV1 in E. lra. }
    rewrite E1, E2, E3. split; reflexivity.
Qed.

(** The float of the fit to the width stays below 2^31 when the exact
    quotient [a * d / c] is at most 2^31 - 1. *)
Lemma width_bound (a c d r y : Q) :
  1 <= a < 2147483648 -> 1 <= c < 2147483648 -> 1 <= d < 2147483648 ->
  0 < r -> 0 < y ->
  rounds_to (r * d) c -> rounds_to (y * r) a ->
  a * d <= 2147483647 * c ->
  y < 2147483648.
Proof.
  unfold rounds_to. change (inject_Z 1) with 1.
  intros Ha Hc Hd Hr Hy [Hr1 Hr2] [Hy1 Hy2] Hfit.
  set (al := 1 - u53) in *. set (be := 1 + u53) in *.
  assert (Hal : 0 < al) by (unfold al, u53; lra).
  assert (Hbe : 0 < be) by (unfold be, u53; lra).
  assert (S1 : y * r * al * (be * d) <= a * (be * d))
    by (apply Qmult_le_compat_r; [ exact Hy1 | nonneg_product ]).
  assert (S2 : c * (al * y) <= r * d * be * (al * y))
    by (apply Qmult_le_compat_r; [ exact Hr2 | nonneg_product ]).
  assert (K1 : al * (c * y) <= be * (a * d)) by lra.
  destruct (Qlt_le_dec y 2147483648) as [Hlt | Hge]; [ exact Hlt | ].
  exfalso.
  assert (S3 : c * 2147483648 <= c * y)
    by (apply Qmult_le_l; [ lra | exact Hge ]).
  assert (S4 : 0 < (al * 2147483648 - be * 2147483647) * c)
    by (apply Qmult_lt_0_compat; unfold al, be, u53; lra).
  unfold al, be, u53 in *. lra.
Qed.

(** The float of the fit to the height stays below 2^31 when the exact
    product [c * b / d] is at most 2^31 - 1. *)
Lemma height_bound (b c d r x : Q) :
  1 <= b < 2147483648 -> 1 <= c < 2147483648 -> 1 <= d < 2147483648 ->
  0 < r -> 0 < x ->
  rounds_to (r * d) c -> rounds_to x (r * b) ->
  c * b <= 2147483647 * d ->
  x < 2147483648.
Proof.
  unfold rounds_to. change (inject_Z 1) with 1.
  intros Hb Hc Hd Hr Hx [Hr1 Hr2] [Hx1 Hx2] Hfit.
  set (al := 1 - u53) in *. set (be := 1 + u53) in *.
  assert (Hal : 0 < al) by (unfold al, u53; lra).
  assert (S1 : x * al * (al * d) <= r * b * (al * d))
    by (apply Qmult_le_compat_r; [ exact Hx1 | nonneg_product ]).
  assert (S2 : r * d * al * b <= c * b)
    by (apply Qmult_le_compat_r; [ exact Hr1 | lra ]).
  assert (K1 : al * al * (d * x) <= b * c) by lra.
  destruct (Qlt_le_dec x 2147483648) as [Hlt | Hge]; [ exact Hlt | ].
  exfalso.
  assert (S3 : d * 2147483648 <= d * x)
    by (apply Qmult_le_l; [ lra | exact Hge ]).
  assert (S4 : 0 < (al * al * 2147483648 - 2147483647) * d)
    by (apply Qmult_lt_0_compat; unfold al, u53; lra).
  unfold al, be, u53 in *. lra.
Qed.

(** The height of the fit to the width is a C [int] when the exact
    [vw * ph / pw] is at most 2^31 - 1. *)
Lemma width_rect_cint (vw pw ph : Z) :
  size_ok vw -> size_ok pw -> size_ok ph ->
  (vw * ph <= (2 ^ 31 - 1) * pw)%Z ->
  (0 <= rh (width_rect vw pw ph) < 2 ^ 31)%Z.
Proof.
  intros Hvw Hpw Hph Hfit. unfold width_rect. cbn [rh].
  destruct (ratio_rounds pw ph Hpw Hph) as (mr & er & Hr & Hnr & Her & Hrr).
  rewrite Hr.
  destruct (width_value vw mr er Hvw Hnr Her) as (my & ey & -> & Hry).
  destruct (trunc_F2Q my ey) as (Ht0 & Ht1 & Ht2).
  set (t := trunc (S754_finite false my ey)) in *.
  assert (Hq : inject_Z vw * inject_Z ph <= 2147483647 * inject_Z pw).
  { change 2147483647 with (inject_Z 2147483647).
    rewrite <- !inject_Z_mult, <- Zle_Qle.
    change (2 ^ 31 - 1)%Z with 2147483647%Z in Hfit. exact Hfit. }
  pose proof (width_bound (inject_Z vw) (inject_Z pw) (inject_Z ph)
                (F2Q (S754_finite false mr er))
                (F2Q (S754_finite false my ey))
                (size_ok_Q vw Hvw) (size_ok_Q pw Hpw) (size_ok_Q ph Hph)
                (F2Q_pos mr er) (F2Q_pos my ey) Hrr Hry Hq) as Hb.
  assert (Q1 : inject_Z t < inject_Z 2147483648)
    by (change (inject_Z 2147483648) with 2147483648; lra).
  rewrite <- Zlt_Qlt in Q1. change (2 ^ 31)%Z with 2147483648%Z. lia.
Qed.

(** The width of the fit to the height is a C [int] when the exact
    [vh * pw / ph] is at most 2^31 - 1. *)
Lemma height_rect_cint (vh pw ph : Z) :
  size_ok vh -> size_ok pw -> size_ok ph ->
  (vh * pw <= (2 ^ 31 - 1) * ph)%Z ->
  (0 <= rw (height_rect vh pw ph) < 2 ^ 31)%Z.
Proof.
  intros Hvh Hpw Hph Hfit. unfold height_rect. cbn [rw].
  destruct (ratio_rounds pw ph Hpw Hph) as (mr & er & Hr & Hnr & Her & Hrr).
  rewrite Hr.
  destruct (height_value vh mr er Hvh Hnr Her) as (mx & ex & -> & Hrx).
  destruct (trunc_F2Q mx ex) as (Ht0 & Ht1 & Ht2).
  set (t := trunc (S754_finite false mx ex)) in *.
  assert (Hq : inject_Z pw * inject_Z vh <= 2147483647 * inject_Z ph).
  { change 2147483647 with (inject_Z 2147483647).
    rewrite <- !inject_Z_mult, <- Zle_Qle.
    change (2 ^ 31 - 1)%Z with 2147483647%Z in Hfit. lia. }
  pose proof (height_bound (inject_Z vh) (inject_Z pw) (inject_Z ph)
                (F2Q (S754_finite false mr er))
                (F2Q (S754_finite false mx ex))
                (size_ok_Q vh Hvh) (size_ok_Q pw Hpw) (size_ok_Q ph Hph)
                (F2Q_pos mr er) (F2Q_pos mx ex) Hrr Hrx Hq) as Hb.
  assert (Q1 : inject_Z t < inject_Z 2147483648)
    by (change (inject_Z 2147483648) with 2147483648; lra).
  rewrite <- Zlt_Qlt in Q1. change (2 ^ 31)%Z with 2147483648%Z. lia.
Qed.

Lemma width_rect_nonneg (vw pw ph : Z) :
  size_ok vw -> size_ok pw -> size_ok ph ->
  (0 <= rh (width_rect vw pw ph))%Z.
Proof.
  intros Hvw Hpw Hph. unfold width_rect. cbn [rh].
  destruct (ratio_rounds pw ph Hpw Hph) as (mr & er & Hr & Hnr & Her & _).
  rewrite Hr.
  destruct (width_value vw mr er Hvw Hnr Her) as (my & ey & -> & _).
  apply trunc_F2Q.
Qed.

Lemma height_rect_nonneg (vh pw ph : Z) :
  size_ok vh -> size_ok pw -> size_ok ph ->
  (0 <= rw (height_rect vh pw ph))%Z.
Proof.
  intros Hvh Hpw Hph. unfold height_rect. cbn [rw].
  destruct (ratio_rounds pw ph Hpw Hph) as (mr & er & Hr & Hnr & Her & _).
  rewrite Hr.
  destruct (height_value vh mr er Hvh Hnr Her) as (mx & ex & -> & _).
  apply trunc_F2Q.
Qed.

End FloatValue.

(** ** The rectangle and the range of a C [int] *)

Module FitBounds.
Import PyFloat Fit FitSpec FitExact PyFloatFacts FitFacts.

(** On a page that is not rotated the constructor never overflows: the
    rectangle lies in the viewport. *)
Lemma fit_rect_float_built (vw vh pw ph : Z) :
  size_ok vw -> size_ok vh -> size_ok pw -> size_ok ph ->
  QRect_of (fit_rect_float vw vh pw ph) = ok (fit_rect_float vw vh pw ph).
Proof.
  intros Hvw Hvh Hpw Hph. unfold fit_rect_float.
  pose proof Hvw as Hvw'. pose proof Hvh as Hvh'.
  unfold size_ok in Hvw', Hvh'.
  destruct (fgt (ratio vh vw) (ratio ph pw)) eqn:Hgt.
  - destruct (FloatValue.width_rect_exact vw vh pw ph Hvw Hvh Hpw Hph Hgt)
      as (H1 & H2 & _).
    apply QRect_of_ok; try reflexivity; [ rewrite H1 | ]; lia.
  - destruct (FloatValue.height_rect_exact vw vh pw ph Hvw Hvh Hpw Hph Hgt)
      as (H1 & H2 & _).
    apply QRect_of_ok; try reflexivity; [ | rewrite H1 ]; lia.
Qed.

Lemma fitPage_unrotated_ok (vw vh pw ph : Z) :
  size_ok vw -> size_ok vh -> size_ok pw -> size_ok ph ->
  needs_rotation (ratio vh vw) (ratio ph pw) = false ->
  fitPage vw vh pw ph = ok (mkFit false pw ph (fit_rect_float vw vh pw ph)).
Proof.
  intros Hvw Hvh Hpw Hph Hrot.
  rewrite (fitPage_ok vw vh pw ph Hvw Hvh Hpw Hph), Hrot.
  rewrite (fit_rect_float_built vw vh pw ph Hvw Hvh Hpw Hph). reflexivity.
Qed.

Lemma fits_device_sides (vw vh pw ph : Z) :
  size_ok vw -> size_ok vh -> size_ok pw -> size_ok ph ->
  fits_device vw vh pw ph = true ->
  vw * pw <= (2 ^ 31 - 1) * ph /\ vh * ph <= (2 ^ 31 - 1) * pw.
Proof.
  unfold size_ok, fits_device. intros Hvw Hvh Hpw Hph H.
  apply Z.leb_le in H. change (2 ^ 31 - 1) with 2147483647 in *.
  pose proof (Z.le_max_l vw vh). pose proof (Z.le_max_r vw vh).
  pose proof (Z.le_max_l pw ph). pose proof (Z.le_max_r pw ph).
  pose proof (Z.le_min_l pw ph). pose proof (Z.le_min_r pw ph).
  set (V := Z.max vw vh) in *. set (P := Z.max pw ph) in *.
  set (m := Z.min pw ph) in *.
  split; nia.
Qed.

(** On a page that is rotated the constructor does not overflow when the
    bitmap fits the device. *)
Lemma rotated_rect_built (vw vh pw ph : Z) :
  size_ok vw -> size_ok vh -> size_ok pw -> size_ok ph ->
  fits_device vw vh pw ph = true ->
  QRect_of (rotated_rect vw vh pw ph) = ok (rotated_rect vw vh pw ph).
Proof.
  intros Hvw Hvh Hpw Hph Hfit. unfold rotated_rect.
  destruct (fits_device_sides vw vh pw ph Hvw Hvh Hpw Hph Hfit) as [H1 H2].
  pose proof Hvw as Hvw'. pose proof Hvh as Hvh'.
  unfold size_ok in Hvw', Hvh'.
  destruct (fgt (ratio vh vw) (ratio ph pw)).
  - pose proof (FloatValue.width_rect_cint vw ph pw Hvw Hph Hpw H1).
    apply QRect_of_ok; try reflexivity; [ cbn [rw width_rect]; lia | assumption ].
  - pose proof (FloatValue.height_rect_cint vh ph pw Hvh Hph Hpw H2).
    apply QRect_of_ok; try reflexivity; [ assumption | cbn [rh height_rect]; lia ].
Qed.

(** With sizes that fit the device [fitPage] never raises; this is its
    value. *)
Lemma fitPage_fits_ok (vw vh pw ph : Z) :
  size_ok vw -> size_ok vh -> size_ok pw -> size_ok ph ->
  fits_device vw vh pw ph = true ->
  fitPage vw vh pw ph
  = ok (if needs_rotation (ratio vh vw) (ratio ph pw)
        then mkFit true ph pw (rotated_rect vw vh pw ph)
        else mkFit false pw ph (fit_rect_float vw vh pw ph)).
Proof.
  intros Hvw Hvh Hpw Hph Hfit.
  rewrite (fitPage_ok vw vh pw ph Hvw Hvh Hpw Hph).
  rewrite (fit_rect_float_built vw vh pw ph Hvw Hvh Hpw Hph).
  rewrite (rotated_rect_built vw vh pw ph Hvw Hvh Hpw Hph Hfit).
  destruct (needs_rotation (ratio vh vw) (ratio ph pw)); reflexivity.
Qed.

(** The constructor raises nothing but [OverflowError], and what it
    builds is the rectangle it is given. *)
Lemma QRect_of_cases (r : QRect) :
  (QRect_of r = ok r /\ is_cint (rw r) = true /\ is_cint (rh r) = true)
  \/ QRect_of r = throw OverflowError.
Proof.
  destruct r as [x y w h]. unfold QRect_of, QRect_init. cbn [rx ry rw rh].
  destruct (is_cint x), (is_cint y), (is_cint w), (is_cint h); cbn;
    auto.
Qed.

(** Whichever branch computes it, the rectangle sits at the origin, has
    no negative side and spans the viewport in width or in height. *)
Lemma rect_sides (vw vh pw ph : Z) (r : QRect) :
  size_ok vw -> size_ok vh -> size_ok pw -> size_ok ph ->
  r = width_rect vw pw ph \/ r = height_rect vh pw ph ->
  rx r = 0 /\ ry r = 0 /\ (rw r = vw \/ rh r = vh)
  /\ 0 <= rw r /\ 0 <= rh r.
Proof.
  intros Hvw Hvh Hpw Hph [ -> | -> ].
  - pose proof (FloatValue.width_rect_nonneg vw pw ph Hvw Hpw Hph).
    unfold size_ok in Hvw. cbn [rx ry rw width_rect].
    repeat split; auto; lia.
  - pose proof (FloatValue.height_rect_nonneg vh pw ph Hvh Hpw Hph).
    unfold size_ok in Hvh. cbn [rx ry rh height_rect].
    repeat split; auto; lia.
Qed.

End FitBounds.

(** * Facts on traces *)

Section TraceFacts.
Context {E A B : Type}.

Lemma trace_bind (m : M E A) (k : A -> M E B) :
  trace_of (bind m k)
  = trace_of m ++ match outcome_of m with
                  | inr a => trace_of (k a)
                  | inl _ => []
                  end.
Proof.
  destruct m as [t [e | a]]; cbn.
  - rewrite app_nil_r. reflexivity.
  - destruct (k a). reflexivity.
Qed.

Lemma outcome_bind (m : M E A) (k : A -> M E B) :
  outcome_of (bind m k)
  = match outcome_of m with
    | inr a => outcome_of (k a)
    | inl e => inl e
    end.
Proof.
  destruct m as [t [e | a]]; cbn; [ reflexivity | ].
  destruct (k a). reflexivity.
Qed.

End TraceFacts.

(** * Facts on the worker *)

Module WorkerFacts.
Import PyFloat Fit FitSpec Worker WorkerSpec PyFloatFacts FitFacts FitBounds.

Lemma count_app (p : event -> bool) (t u : list event) :
  count p (t ++ u) = (count p t + count p u)%nat.
Proof. unfold count. rewrite filter_app, length_app. reflexivity. Qed.

Lemma progress_values_app (t u : list event) :
  progress_values (t ++ u) = progress_values t ++ progress_values u.
Proof.
  induction t as [ | ev t IH ]; [ reflexivity | ].
  destruct ev; cbn; rewrite ?IH; reflexivity.
Qed.

Lemma count_none (p q : event -> bool) (t : list event) :
  (forall ev, q ev = true -> p ev = false) ->
  forallb q t = true -> count p t = 0%nat.
Proof.
  intros Hpq. induction t as [ | ev t IH ]; [ reflexivity | ].
  cbn [forallb]. rewrite andb_true_iff. intros [Hq Ht].
  unfold count in *. cbn [filter]. rewrite (Hpq ev Hq). auto.
Qed.

(** *** [range] *)

Lemma py_range_empty (lo hi : Z) : hi <= lo -> py_range lo hi = [].
Proof.
  intros H. unfold py_range.
  replace (Z.to_nat (hi - lo)) with 0%nat by lia. reflexivity.
Qed.

Lemma py_range_cons (lo hi : Z) :
  lo < hi -> py_range lo hi = lo :: py_range (lo + 1) hi.
Proof.
  intros H. unfold py_range.
  replace (Z.to_nat (hi - lo)) with (S (Z.to_nat (hi - (lo + 1)))) by lia.
  cbn [seq map]. f_equal; [ lia | ].
  rewrite <- seq_shift, map_map. apply map_ext. intros k. lia.
Qed.

Lemma py_range_length (lo hi : Z) :
  List.length (py_range lo hi) = Z.to_nat (hi - lo).
Proof. unfold py_range. rewrite length_map, length_seq. reflexivity. Qed.

Lemma py_range_In (lo hi i : Z) :
  In i (py_range lo hi) <-> lo <= i < hi.
Proof.
  unfold py_range. rewrite in_map_iff. split.
  - intros (k & <- & Hk). apply in_seq in Hk. lia.
  - intros H. exists (Z.to_nat (i - lo)). split; [ lia | ].
    apply in_seq. lia.
Qed.

Lemma py_range_sorted (lo hi : Z) :
  StronglySorted Z.lt (py_range lo hi).
Proof.
  remember (Z.to_nat (hi - lo)) as n eqn:Hn.
  revert lo Hn. induction n as [ | n IH ]; intros lo Hn.
  - rewrite py_range_empty by lia. constructor.
  - rewrite py_range_cons by lia. constructor.
    + apply IH. lia.
    + apply Forall_forall. intros i Hi. apply py_range_In in Hi. lia.
Qed.

(** *** The render loop *)

Lemma render_loop_step (vw vh total i w h pn : Z) (indices : list Z)
    (images : list (result (Z * Z))) :
  render_loop vw vh total (i :: indices) (inr (w, h) :: images) pn
  = let new := if 1 <? pn then [EvNewPage] else [] in
    match fitPage vw vh w h with
    | inl e => (new, inl e)
    | inr f =>
        let draw := EvDrawImage (printArea f) (pilWidth f) (pilHeight f) in
        match percent pn total with
        | inl e => (new ++ [draw], inl e)
        | inr p =>
            let rest := render_loop vw vh total indices images (pn + 1) in
            (new ++ [draw; EvProgress p] ++ trace_of rest, outcome_of rest)
        end
    end.
Proof.
  cbn [render_loop]. cbv zeta.
  destruct (1 <? pn); destruct (fitPage vw vh w h) as [ e | f ];
    try reflexivity;
    destruct (percent pn total) as [ e | p ]; try reflexivity;
    destruct (render_loop vw vh total indices images (pn + 1))
      as [t [ e | [] ]]; reflexivity.
Qed.

(** Whatever happens, the loop only advances pages, draws and reports
    progress. *)
Lemma render_loop_events (vw vh total : Z) (indices : list Z) :
  forall (images : list (result (Z * Z))) (pn : Z),
    forallb loop_event
      (trace_of (render_loop vw vh total indices images pn)) = true.
Proof.
  induction indices as [ | i indices IH ]; intros images pn.
  - reflexivity.
  - destruct images as [ | [ e | [w h] ] images ]; try reflexivity.
    rewrite render_loop_step. cbv zeta.
    specialize (IH images (pn + 1)).
    destruct (1 <? pn); destruct (fitPage vw vh w h) as [ e | f ];
      try reflexivity;
      destruct (percent pn total) as [ e | p ]; try reflexivity;
      cbn; exact IH.
Qed.

Lemma percent_floor (pn total : Z) :
  1 <= pn <= total -> total < 2 ^ 31 ->
  percent pn total = ok (pn * 100 / total).
Proof.
  intros Hpn Ht. change (2 ^ 31) with 2147483648 in Ht.
  unfold percent.
  destruct (to_int_truediv (pn * 100) total) as (f & -> & Hf);
    try (change (2 ^ 51) with 2251799813685248; lia).
  exact Hf.
Qed.

(** With a renderer that yields one good bitmap per index, each fitting
    the device, the loop runs to its end: one draw and one progress
    value per index. *)
Lemma render_loop_good (vw vh total : Z) (indices : list Z) :
  size_ok vw -> size_ok vh -> total < 2 ^ 31 ->
  forall (images : list (result (Z * Z))) (pn : Z),
    1 <= pn -> pn + len indices <= total + 1 ->
    List.length images = List.length indices ->
    forallb good_image images = true ->
    forallb (fits_viewport vw vh) images = true ->
    let m := render_loop vw vh total indices images pn in
    outcome_of m = ok tt
    /\ count is_draw (trace_of m) = List.length indices
    /\ progress_values (trace_of m)
       = map (fun k => k * 100 / total) (py_range pn (pn + len indices))
    /\ count is_newPage (trace_of m)
       = if 1 <? pn then List.length indices
         else Nat.pred (List.length indices).
Proof.
  intros Hvw Hvh Ht.
  induction indices as [ | i indices IH ];
    intros images pn Hpn Hlen Himg Hgood Hfits.
  - cbn. rewrite py_range_empty by (unfold len; cbn; lia).
    destruct (1 <? pn); repeat split; reflexivity.
  - destruct images as [ | [ e | [w h] ] images ]; try discriminate.
    cbn [forallb good_image] in Hgood.
    apply andb_true_iff in Hgood as [Hwh Hgood].
    apply andb_true_iff in Hwh as [Hw Hh].
    apply size_okb_spec in Hw, Hh.
    cbn [forallb fits_viewport] in Hfits.
    apply andb_true_iff in Hfits as [Hfit Hfits].
    unfold len in Hlen. cbn [List.length] in Hlen, Himg.
    cbv zeta. rewrite render_loop_step. cbv zeta.
    rewrite (fitPage_fits_ok vw vh w h Hvw Hvh Hw Hh Hfit).
    rewrite percent_floor by lia.
    cbv beta iota.
    match goal with
    | |- context [EvDrawImage (printArea ?x) _ _] => generalize x; intros f
    end.
    destruct (IH images (pn + 1)) as (Ho & Hd & Hp & Hn);
      try lia; try assumption; [ unfold len; lia | ].
    set (rest := render_loop vw vh total indices images (pn + 1)) in *.
    cbn [trace_of outcome_of fst snd].
    split; [ exact Ho | ].
    rewrite !count_app, !progress_values_app, Hd, Hp, Hn.
    replace (pn + len (i :: indices)) with (pn + 1 + len indices)
      by (unfold len; cbn [List.length]; lia).
    rewrite (py_range_cons pn) by (unfold len; lia).
    replace (1 <? pn + 1) with true by (symmetry; apply Z.ltb_lt; lia).
    destruct (1 <? pn); cbn; repeat split; try reflexivity; lia.
Qed.

(** *** The three ways through [run] *)

Lemma run_declined (j : job) :
  dialog_exec j = false ->
  run j = ([EvDialogExec; EvDelPrinter; EvFinished], ok tt).
Proof. intros H. unfold run. rewrite H. reflexivity. Qed.

Lemma run_open_fails (j : job) (e : exn) :
  dialog_exec j = true -> open_document j = throw e ->
  run j = ([EvDialogExec; EvPainterBegin; EvOpenDocument], throw e).
Proof.
  intros Hd Ho. unfold run. rewrite Hd. destruct (viewport j) as [vw vh].
  rewrite Ho. reflexivity.
Qed.

Lemma run_accepted (j : job) (n_pages : Z) :
  dialog_exec j = true -> open_document j = ok n_pages ->
  run j
  = ([EvDialogExec; EvPainterBegin; EvOpenDocument;
      EvRender (page_indices n_pages (fromPage j) (toPage j))]
     ++ trace_of (loop_of j n_pages)
     ++ match outcome_of (loop_of j n_pages) with
        | inr _ => [EvPdfClose; EvPainterEnd; EvDelPrinter; EvFinished]
        | inl _ => []
        end,
     outcome_of (loop_of j n_pages)).
Proof.
  intros Hd Ho. unfold run, loop_of. rewrite Hd.
  destruct (viewport j) as [vw vh]. rewrite Ho.
  cbn [bind lift emit ret fst snd].
  destruct (render_loop vw vh _ _ _ 1) as [t [ e | [] ]]; cbn.
  - rewrite app_nil_r. reflexivity.
  - rewrite <- app_assoc. reflexivity.
Qed.

Lemma loop_no_finished (t : list event) :
  forallb loop_event t = true ->
  count is_finished t = 0%nat /\ count is_cleanup t = 0%nat.
Proof.
  intros H. split; apply (count_none _ loop_event); try assumption;
    intros [ ]; cbn; congruence.
Qed.

(** An accepted job on a document that opens, with a renderer that
    yields one good bitmap per requested index, each fitting the
    device. *)
Lemma run_good (j : job) (n_pages : Z) :
  dialog_exec j = true -> open_document j = ok n_pages ->
  viewport_ok j = true ->
  let indices := page_indices n_pages (fromPage j) (toPage j) in
  renders_all j indices = true ->
  pages_fit j indices = true ->
  len indices < 2 ^ 31 ->
  let t := trace_of (run j) in
  outcome_of (run j) = ok tt
  /\ count is_draw t = List.length indices
  /\ progress_values t = floor_percents (len indices)
  /\ count is_newPage t = Nat.pred (List.length indices)
  /\ count is_finished t = 1%nat.
Proof.
  intros Hd Ho Hv indices Hr Hfit Hlen. cbv zeta.
  rewrite (run_accepted j n_pages Hd Ho). fold indices.
  apply andb_true_iff in Hv as [Hvw Hvh].
  apply size_okb_spec in Hvw, Hvh.
  apply andb_true_iff in Hr as [Hl Hg]. apply Nat.eqb_eq in Hl.
  pose proof (render_loop_events (fst (viewport j)) (snd (viewport j))
                (len indices) indices (renderer j indices) 1) as Hev.
  destruct (render_loop_good (fst (viewport j)) (snd (viewport j))
              (len indices) indices Hvw Hvh Hlen (renderer j indices) 1)
    as (Hout & Hdraw & Hprog & Hnew); try assumption; try lia.
  fold indices in Hout, Hdraw, Hprog, Hnew, Hev.
  change (render_loop _ _ _ _ _ 1) with (loop_of j n_pages)
    in Hout, Hdraw, Hprog, Hnew, Hev.
  destruct (loop_no_finished _ Hev) as [Hfin _].
  cbn [trace_of outcome_of fst snd]. rewrite Hout.
  rewrite !count_app, !progress_values_app, Hdraw, Hprog, Hnew, Hfin.
  unfold floor_percents. rewrite (Z.add_comm (len indices) 1).
  change (1 <? 1) with false.
  cbn. rewrite app_nil_r.
  repeat split; try reflexivity; lia.
Qed.

(** The device fit cannot be dropped.  On a landscape viewport a bitmap
    one pixel wide is rotated and scaled to a width of 2147896500, which
    the [QRect] constructor refuses: nothing is drawn. *)
Lemma strip_job_overflows :
  viewport_ok Examples.job_strip = true
  /\ renders_all Examples.job_strip [0] = true
  /\ pages_fit Examples.job_strip [0] = false
  /\ height_rect 9921 216500 1 = mkQRect 0 0 2147896500 9921
  /\ run Examples.job_strip
     = ([EvDialogExec; EvPainterBegin; EvOpenDocument; EvRender [0]],
        throw OverflowError).
Proof. repeat split; vm_compute; reflexivity. Qed.

(** *** The progress values *)

Lemma py_range_nth (lo hi : Z) (k : nat) :
  (k < Z.to_nat (hi - lo))%nat ->
  nth_error (py_range lo hi) k = Some (lo + Z.of_nat k).
Proof.
  intros H. unfold py_range. rewrite nth_error_map, nth_error_seq.
  destruct (Nat.ltb_spec k (Z.to_nat (hi - lo))); [ reflexivity | lia ].
Qed.


Lemma floor_percents_nth (N k : Z) :
  1 <= k <= N ->
  nth_error (floor_percents N) (Z.to_nat (k - 1)) = Some (k * 100 / N).
Proof.
  intros H. unfold floor_percents.
  rewrite nth_error_map, py_range_nth by lia. cbn [option_map].
  do 3 f_equal. lia.
Qed.



Lemma map_sorted_le (f : Z -> Z) (l : list Z) :
  (forall a b, a <= b -> f a <= f b) ->
  StronglySorted Z.lt l -> StronglySorted Z.le (map f l).
Proof.
  intros Hf Hl. induction Hl as [ | a l Hl IH Ha ]; cbn [map].
  - constructor.
  - constructor; [ exact IH | ].
    apply Forall_map. eapply Forall_impl; [ | exact Ha ].
    intros b Hb. apply Hf. lia.
Qed.

Lemma floor_percents_sorted (N : Z) :
  1 <= N -> StronglySorted Z.le (floor_percents N).
Proof.
  intros H. unfold floor_percents. apply map_sorted_le.
  - intros a b Hab. apply Z.div_le_mono; lia.
  - apply py_range_sorted.
Qed.

(** At most one draw per requested index, whatever the renderer does. *)
Lemma render_loop_draws_le (vw vh total : Z) (indices : list Z) :
  forall (images : list (result (Z * Z))) (pn : Z),
    (count is_draw (trace_of (render_loop vw vh total indices images pn))
     <= List.length indices)%nat.
Proof.
  induction indices as [ | i indices IH ]; intros images pn.
  - vm_compute. lia.
  - destruct images as [ | [ e | [w h] ] images ]; try (cbn; lia).
    rewrite render_loop_step. cbv zeta.
    specialize (IH images (pn + 1)).
    destruct (1 <? pn); destruct (fitPage vw vh w h) as [ e | f ];
      try (cbn; lia);
      destruct (percent pn total) as [ e | p ]; try (cbn; lia);
      cbn [trace_of fst]; rewrite !count_app; cbn [List.length];
      unfold count at 1; cbn; lia.
Qed.

(** Every progress value the loop emits is the floor of its page
    number times 100 over the total, whatever the renderer does. *)
Lemma render_loop_progress_prefix (vw vh total : Z) (indices : list Z) :
  total < 2 ^ 31 ->
  forall (images : list (result (Z * Z))) (pn : Z),
    1 <= pn -> pn + len indices <= total + 1 ->
    exists rest : list Z,
      map (fun k => k * 100 / total) (py_range pn (pn + len indices))
      = progress_values
          (trace_of (render_loop vw vh total indices images pn)) ++ rest.
Proof.
  intros Ht.
  induction indices as [ | i indices IH ]; intros images pn Hpn Hlen.
  - eexists. reflexivity.
  - unfold len in Hlen. cbn [List.length] in Hlen.
    destruct images as [ | [ e | [w h] ] images ];
      try (eexists; reflexivity).
    rewrite render_loop_step. cbv zeta.
    destruct (fitPage vw vh w h) as [ e | f ].
    { destruct (1 <? pn); eexists; reflexivity. }
    rewrite percent_floor by lia.
    destruct (IH images (pn + 1)) as [rest Hrest];
      [ lia | unfold len; lia | ].
    exists rest. cbn [trace_of fst].
    replace (pn + len (i :: indices)) with (pn + 1 + len indices)
      by (unfold len; cbn [List.length]; lia).
    rewrite (py_range_cons pn) by (unfold len; lia).
    cbn [map]. rewrite Hrest, !progress_values_app.
    destruct (1 <? pn); reflexivity.
Qed.

Lemma run_loop_values (j : job) (n_pages : Z) :
  dialog_exec j = true -> open_document j = ok n_pages ->
  progress_values (trace_of (run j))
  = progress_values (trace_of (loop_of j n_pages))
  /\ count is_draw (trace_of (run j))
     = count is_draw (trace_of (loop_of j n_pages)).
Proof.
  intros Hd Ho. rewrite (run_accepted j n_pages Hd Ho).
  cbn [trace_of fst].
  rewrite !progress_values_app, !count_app.
  destruct (outcome_of (loop_of j n_pages)); cbn;
    rewrite ?app_nil_r; split; reflexivity || lia.
Qed.

(** *** The draw calls *)

Lemma draws_app (t u : list event) : draws (t ++ u) = draws t ++ draws u.
Proof. apply filter_app. Qed.

(** The [k]-th draw of the loop is the draw call of the [k]-th item of
    the renderer, which stands against the [k]-th index. *)
Lemma render_loop_draws_nth (vw vh total : Z) (indices : list Z) :
  forall (images : list (result (Z * Z))) (pn : Z) (k : nat) (ev : event),
    nth_error (draws (trace_of (render_loop vw vh total indices images pn))) k
    = Some ev ->
    exists (i : Z) (img : result (Z * Z)),
      nth_error indices k = Some i
      /\ nth_error images k = Some img
      /\ draw_call vw vh img = Some ev.
Proof.
  induction indices as [ | i indices IH ]; intros images pn k ev H.
  - destruct k; discriminate.
  - destruct images as [ | [ e | [w h] ] images ];
      try (destruct k; discriminate).
    rewrite render_loop_step in H. cbv zeta in H.
    assert (Hnew : draws (if 1 <? pn then [EvNewPage] else []) = [])
      by (destruct (1 <? pn); reflexivity).
    destruct (fitPage vw vh w h) as [ e | f ] eqn:Hf.
    { cbn [trace_of fst] in H. rewrite Hnew in H. destruct k; discriminate. }
    destruct (percent pn total) as [ e | p ].
    { cbn [trace_of fst] in H. rewrite draws_app, Hnew in H.
      destruct k as [ | [ | k ] ]; try discriminate.
      injection H as <-. exists i, (ok (w, h)).
      cbn [nth_error draw_call]. rewrite Hf. repeat split. }
    cbn [trace_of fst] in H. rewrite !draws_app, Hnew in H.
    destruct k as [ | k ].
    + injection H as <-. exists i, (ok (w, h)).
      cbn [nth_error draw_call]. rewrite Hf. repeat split.
    + cbn in H. apply (IH images (pn + 1) k ev H).
Qed.

Lemma run_loop_draws (j : job) (n_pages : Z) :
  dialog_exec j = true -> open_document j = ok n_pages ->
  draws (trace_of (run j)) = draws (trace_of (loop_of j n_pages)).
Proof.
  intros Hd Ho. rewrite (run_accepted j n_pages Hd Ho).
  cbn [trace_of fst]. rewrite !draws_app.
  destruct (outcome_of (loop_of j n_pages)); cbn; rewrite ?app_nil_r;
    reflexivity.
Qed.


Lemma page_indices_In (n_pages fromPage toPage i : Z) :
  In i (page_indices n_pages fromPage toPage)
  <-> if fromPage =? 0 then 0 <= i < n_pages
      else fromPage - 1 <= i < toPage.
Proof.
  unfold page_indices. destruct (fromPage =? 0); apply py_range_In.
Qed.

Lemma page_indices_sorted (n_pages fromPage toPage : Z) :
  StronglySorted Z.lt (page_indices n_pages fromPage toPage).
Proof.
  unfold page_indices. destruct (fromPage =? 0); apply py_range_sorted.
Qed.

End WorkerFacts.

(** * Facts on the shell *)

Module ShellFacts.
Import Worker Shell.

(** [__init__] takes any [str], whether or not it names a file. *)
Lemma init_str (fs : string -> bool) (s : string) :
  init fs (PyStr s) = ok (mkWorker s).
Proof. reflexivity. Qed.

Lemma init_None (fs : string -> bool) :
  init fs PyNone = throw AttributeError.
Proof. reflexivity. Qed.

Lemma init_bytes (fs : string -> bool) (s : string) :
  init fs (PyBytes s) = throw TypeError.
Proof. unfold init. cbn. destruct (fs s); reflexivity. Qed.

(** The handler over any constructor: it stops after the call when the
    constructor raises, and starts the thread and then disables the
    button when it returns. *)
Lemma runPrintTask_on_cases (new_worker : pyval -> result printPdfWorker)
    (picked : string) (w : Window) :
  match new_worker (PyStr picked) with
  | inl e =>
      runPrintTask_on new_worker picked w
      = ([UiGetOpenFileName; UiNewThread; UiNewWorker (PyStr picked)],
         throw e)
  | inr wk =>
      exists (before after : list ui_event),
        runPrintTask_on new_worker picked w
        = ([UiGetOpenFileName; UiNewThread; UiNewWorker (PyStr picked)]
           ++ before ++ [UiThreadStart; UiSetEnabled false] ++ after,
           ok (mkWindow (clicksCount w) (clicksLabel w) (stepLabel w)
                        false (Some wk) true))
        /\ List.length (filter is_thread_start (before ++ after)) = 0%nat
        /\ List.length (filter is_disable (before ++ after)) = 0%nat
  end.
Proof.
  unfold runPrintTask_on, getFile. cbn [bind emit ret lift app].
  destruct (new_worker (PyStr picked)) as [ e | wk ].
  - reflexivity.
  - exists [UiMoveToThread;
            UiConnect thread_started_sig worker_run;
            UiConnect worker_finished_sig thread_quit;
            UiConnect worker_finished_sig worker_deleteLater;
            UiConnect thread_finished_sig thread_deleteLater;
            UiConnect worker_progress_sig reportProgress_slot],
           [UiConnect thread_finished_sig printFinished_slot].
    repeat split.
Qed.

Lemma filter_length_app {X} (p : X -> bool) (t u : list X) :
  List.length (filter p (t ++ u))
  = (List.length (filter p t) + List.length (filter p u))%nat.
Proof. rewrite filter_app, length_app. reflexivity. Qed.

End ShellFacts.

(** * The claims *)

Import PyFloat Fit FitSpec Worker WorkerSpec Shell Examples.
Import PyFloatFacts FitFacts FitBounds WorkerFacts ShellFacts.

(** ** Geometry (C2, C8) *)

(** C2, as stated, fails: on the square viewport 100 x 100 and the bitmap
    100 x 300 (no rotation) the code draws into (0, 0, 33, 100), where the
    rectangle worded in the claim is (0, 0, 300, 100). *)
Lemma fit_claimed_rect_differs :
  fitPage 100 100 100 300 = ok (mkFit false 100 300 (mkQRect 0 0 33 100))
  /\ fit_rect_claimed 100 100 100 300 = mkQRect 0 0 300 100
  /\ mkQRect 0 0 33 100 <> fit_rect_claimed 100 100 100 300.
Proof.
  split; [ vm_compute; reflexivity | ].
  split; [ vm_compute; reflexivity | ].
  vm_compute. discriminate.
Qed.

(** C2, amended: on a page that the orientation step leaves unrotated,
    with well-formed bitmap and viewport sizes, nothing raises and the
    drawing rectangle is (0, 0, VW, int(VW / (PW/PH))) if
    VH/VW > PH/PW and (0, 0, int(PW/PH * VH), VH) otherwise, in Python
    float arithmetic with [int] truncating. *)
Theorem fitPage_unrotated (vw vh pw ph : Z) :
  size_ok vw -> size_ok vh -> size_ok pw -> size_ok ph ->
  needs_rotation (ratio vh vw) (ratio ph pw) = false ->
  fitPage vw vh pw ph = ok (mkFit false pw ph (fit_rect_float vw vh pw ph))
  /\ fit_rect_float vw vh pw ph
     = if fgt (ratio vh vw) (ratio ph pw)
       then mkQRect 0 0 vw (trunc (SFdiv prec emax (of_int vw) (ratio pw ph)))
       else mkQRect 0 0 (trunc (fmul (ratio pw ph) (of_int vh))) vh.
Proof.
  intros Hvw Hvh Hpw Hph Hrot.
  rewrite (fitPage_unrotated_ok vw vh pw ph Hvw Hvh Hpw Hph Hrot).
  split; reflexivity.
Qed.

Lemma fitPage_unrotated_witness :
  fitPage 100 100 100 300
  = ok (mkFit false 100 300 (fit_rect_float 100 100 100 300))
  /\ fit_rect_float 100 100 100 300 = mkQRect 0 0 33 100.
Proof.
  assert (Hs : forall z, 0 < z < 1000 -> size_ok z)
    by (intros z Hz; unfold size_ok; change (2 ^ 31) with 2147483648; lia).
  destruct (fitPage_unrotated 100 100 100 300) as [H1 H2].
  - apply Hs. lia.
  - apply Hs. lia.
  - apply Hs. lia.
  - apply Hs. lia.
  - vm_compute. reflexivity.
  - split; [ exact H1 | vm_compute; reflexivity ].
Defined.

(** C8, evaluated on the code: for the viewport 100 x 200 and the raw
    bitmap 300 x 100 the rotation is triggered and the bitmap is 100 x 300
    afterwards, as the claim says.  The viewport ratio 2.0 does not
    exceed the ratio 3.0 of that bitmap, which is the case of the fit to
    the height; line 91 however compares against the ratio computed
    before the transpose (0.333), so the fit to the width runs: the page
    is drawn into (0, 0, 100, 300), which is higher than the viewport,
    where the claim has (0, 0, 600, 200). *)
Theorem fit_example_rotation :
  fgt (ratio 200 100) (of_int 1) = true
  /\ flt (ratio 100 300) (of_int 1) = true
  /\ needs_rotation (ratio 200 100) (ratio 100 300) = true
  /\ fgt (ratio 200 100) (ratio 300 100) = false
  /\ fgt (ratio 200 100) (ratio 100 300) = true
  /\ exists f : fit,
       fitPage 100 200 300 100 = ok f
       /\ rotated f = true /\ pilWidth f = 100 /\ pilHeight f = 300
       /\ printArea f = mkQRect 0 0 100 300
       /\ fit_width 100 (pilWidth f) (pilHeight f) = ok (printArea f)
       /\ printArea f <> mkQRect 0 0 600 200
       /\ 200 < rh (printArea f).
Proof.
  repeat (split; [ vm_compute; reflexivity | ]).
  exists (mkFit true 100 300 (mkQRect 0 0 100 300)).
  split; [ vm_compute; reflexivity | ].
  cbn [rotated pilWidth pilHeight printArea rh].
  do 4 (split; [ reflexivity | ]).
  split; [ vm_compute; reflexivity | ].
  split; [ discriminate | reflexivity ].
Qed.

(** ** Declined dialog and empty range (C9, C10) *)

(** C9: when the print dialog is declined there is no draw, no page
    advance and no progress value, and [finished] is emitted once. *)
Theorem declined_dialog_trace (j : job) :
  dialog_exec j = false ->
  let t := trace_of (run j) in
  t = [EvDialogExec; EvDelPrinter; EvFinished]
  /\ outcome_of (run j) = ok tt
  /\ count is_draw t = 0%nat
  /\ count is_newPage t = 0%nat
  /\ count is_progress t = 0%nat
  /\ count is_finished t = 1%nat.
Proof.
  intros H. cbv zeta. rewrite (run_declined j H).
  repeat split.
Qed.

Lemma declined_dialog_trace_witness :
  trace_of (run job_declined) = [EvDialogExec; EvDelPrinter; EvFinished]
  /\ count is_finished (trace_of (run job_declined)) = 1%nat.
Proof.
  destruct (declined_dialog_trace job_declined) as (H1 & _ & _ & _ & _ & H2).
  - reflexivity.
  - split; [ exact H1 | exact H2 ].
Defined.

(** C10: an accepted job on a document that opens, whose range is empty
    (fromPage > 0 and toPage < fromPage), runs no iteration of the loop:
    no draw, no page advance, no progress value; the document is opened
    and closed, the painter is ended and [finished] is emitted once. *)
Theorem empty_range_job (j : job) (n_pages : Z) :
  dialog_exec j = true -> open_document j = ok n_pages ->
  0 < fromPage j -> toPage j < fromPage j ->
  let t := trace_of (run j) in
  page_indices n_pages (fromPage j) (toPage j) = []
  /\ t = [EvDialogExec; EvPainterBegin; EvOpenDocument; EvRender [];
          EvPdfClose; EvPainterEnd; EvDelPrinter; EvFinished]
  /\ outcome_of (run j) = ok tt
  /\ count is_draw t = 0%nat
  /\ count is_newPage t = 0%nat
  /\ count is_progress t = 0%nat
  /\ count is_finished t = 1%nat.
Proof.
  intros Hd Ho Hf Ht. cbv zeta.
  assert (Hidx : page_indices n_pages (fromPage j) (toPage j) = []).
  { unfold page_indices. destruct (Z.eqb_spec (fromPage j) 0); [ lia | ].
    apply py_range_empty. lia. }
  rewrite (run_accepted j n_pages Hd Ho). unfold loop_of. rewrite Hidx.
  repeat split.
Qed.

Lemma empty_range_job_witness :
  trace_of (run (job_sub 3 2 1))
  = [EvDialogExec; EvPainterBegin; EvOpenDocument; EvRender [];
     EvPdfClose; EvPainterEnd; EvDelPrinter; EvFinished]
  /\ count is_finished (trace_of (run (job_sub 3 2 1))) = 1%nat.
Proof.
  destruct (empty_range_job (job_sub 3 2 1) 3)
    as (_ & H1 & _ & _ & _ & _ & H2).
  - reflexivity.
  - reflexivity.
  - reflexivity.
  - reflexivity.
  - split; [ exact H1 | exact H2 ].
Defined.

(** ** Exit paths of the worker (C1) *)



(** ** Page range (C3) *)

(** C3: for an accepted job on a document of [n_pages] pages the resolved
    range holds exactly the indices [0 <= i < n_pages] when [fromPage] is
    0 and [fromPage - 1 <= i < toPage] otherwise, in ascending order; it
    is the list handed to the renderer; the [k]-th page drawn is the
    [k]-th bitmap the renderer yields for that list, standing against
    its [k]-th index, so at most one page is drawn per index; and every
    index has its page drawn when the renderer yields a bitmap for every
    requested index and the bitmaps fit the device. *)
Theorem page_range_resolved (j : job) (n_pages : Z) :
  dialog_exec j = true -> open_document j = ok n_pages ->
  let indices := page_indices n_pages (fromPage j) (toPage j) in
  let t := trace_of (run j) in
  (forall i : Z,
      In i indices
      <-> if fromPage j =? 0 then 0 <= i < n_pages
          else fromPage j - 1 <= i < toPage j)
  /\ StronglySorted Z.lt indices
  /\ (exists rest : list event,
         t = [EvDialogExec; EvPainterBegin; EvOpenDocument; EvRender indices]
             ++ rest)
  /\ (forall (k : nat) (ev : event),
         nth_error (draws t) k = Some ev ->
         exists (i : Z) (img : result (Z * Z)),
           nth_error indices k = Some i
           /\ nth_error (renderer j indices) k = Some img
           /\ draw_call (fst (viewport j)) (snd (viewport j)) img = Some ev)
  /\ (count is_draw t <= List.length indices)%nat
  /\ (viewport_ok j = true -> renders_all j indices = true ->
      pages_fit j indices = true -> len indices < 2 ^ 31 ->
      count is_draw t = List.length indices
      /\ outcome_of (run j) = ok tt).
Proof.
  intros Hd Ho indices t.
  split; [ intros i; apply page_indices_In | ].
  split; [ apply page_indices_sorted | ].
  split; [ unfold t; rewrite (run_accepted j n_pages Hd Ho);
           eexists; reflexivity | ].
  split.
  { intros k ev Hk. unfold t in Hk.
    rewrite (run_loop_draws j n_pages Hd Ho) in Hk.
    apply (render_loop_draws_nth _ _ _ _ _ _ _ _ Hk). }
  split.
  - unfold t. destruct (run_loop_values j n_pages Hd Ho) as [_ ->].
    apply render_loop_draws_le.
  - intros Hv Hr Hfit Hlen.
    destruct (run_good j n_pages Hd Ho Hv Hr Hfit Hlen) as (Hout & Hdraw & _).
    split; [ exact Hdraw | exact Hout ].
Qed.

Lemma page_range_resolved_witness :
  page_indices 5 2 4 = [1; 2; 3]
  /\ count is_draw (trace_of (run (job_sub 5 2 4))) = 3%nat.
Proof.
  destruct (page_range_resolved (job_sub 5 2 4) 5)
    as (_ & _ & _ & _ & _ & Hgood).
  - reflexivity.
  - reflexivity.
  - destruct Hgood as [Hdraw _].
    + reflexivity.
    + reflexivity.
    + reflexivity.
    + reflexivity.
    + split; [ reflexivity | exact Hdraw ].
Defined.

(** ** Progress values (C4, C7) *)







(** ** Construction of the worker and the print button (C5, C6) *)

(** C5, evaluated on the code: [__init__] raises for a missing argument,
    but a [str] naming no file is accepted (the test of line 45 lets
    every [str] through), so the shell goes on to start the thread and to
    disable the button. *)
Theorem init_accepts_missing_file :
  init no_files PyNone = throw AttributeError
  /\ no_files "missing.pdf" = false
  /\ init no_files (PyStr "missing.pdf") = ok (mkWorker "missing.pdf")
  /\ List.length (filter is_thread_start
       (trace_of (runPrintTask no_files "missing.pdf" window0))) = 1%nat
  /\ List.length (filter is_disable
       (trace_of (runPrintTask no_files "missing.pdf" window0))) = 1%nat.
Proof. repeat split. Qed.

(** C6, evaluated on the code: with a cancelled picker (empty path) the
    handler constructs the worker, starts the thread and disables the
    print button.  The handler does not look at the path: it hands it to
    the constructor, stops before the thread is started when the
    constructor raises, and goes on when it returns; the constructor
    takes the empty path although it names no file (the test of line
    45). *)
Theorem cancelled_picker_starts_job :
  no_files "" = false
  /\ init no_files (PyStr "") = ok (mkWorker "")
  /\ runPrintTask no_files "" window0
     = ([UiGetOpenFileName; UiNewThread; UiNewWorker (PyStr "");
         UiMoveToThread;
         UiConnect thread_started_sig worker_run;
         UiConnect worker_finished_sig thread_quit;
         UiConnect worker_finished_sig worker_deleteLater;
         UiConnect thread_finished_sig thread_deleteLater;
         UiConnect worker_progress_sig reportProgress_slot;
         UiThreadStart;
         UiSetEnabled false;
         UiConnect thread_finished_sig printFinished_slot],
        ok (mkWindow 0 0 0 false (Some (mkWorker "")) true))
  /\ List.length (filter is_new_worker
       (trace_of (runPrintTask no_files "" window0))) = 1%nat
  /\ List.length (filter is_thread_start
       (trace_of (runPrintTask no_files "" window0))) = 1%nat
  /\ List.length (filter is_disable
       (trace_of (runPrintTask no_files "" window0))) = 1%nat
  /\ (forall new_worker : pyval -> result printPdfWorker,
        match new_worker (PyStr "") with
        | inl e =>
            runPrintTask_on new_worker "" window0
            = ([UiGetOpenFileName; UiNewThread; UiNewWorker (PyStr "")],
               throw e)
        | inr wk =>
            outcome_of (runPrintTask_on new_worker "" window0)
            = ok (mkWindow 0 0 0 false (Some wk) true)
            /\ List.length (filter is_thread_start
                 (trace_of (runPrintTask_on new_worker "" window0))) = 1%nat
        end).
Proof.
  do 6 (split; [ reflexivity | ]).
  intros new_worker.
  pose proof (runPrintTask_on_cases new_worker "" window0) as H.
  destruct (new_worker (PyStr "")) as [ e | wk ].
  - exact H.
  - destruct H as (before & after & -> & Hs & _).
    split; [ reflexivity | ].
    cbn [trace_of fst].
    change ([UiGetOpenFileName; UiNewThread; UiNewWorker (PyStr "")]
            ++ before ++ [UiThreadStart; UiSetEnabled false] ++ after)
      with ([UiGetOpenFileName; UiNewThread; UiNewWorker (PyStr "")]
            ++ before ++ [UiThreadStart] ++ [UiSetEnabled false] ++ after).
    rewrite filter_length_app in Hs.
    rewrite !filter_length_app. cbn [filter is_thread_start List.length].
    lia.
Qed.

(** * Further properties of the code *)

(** ** The constructor of the worker *)

(** [None] raises [AttributeError]; a [str] or a [Path] is taken as it
    is and a [bytes] path raises [TypeError], whether the file exists or
    not.  The test [os.path.exists] of line 45 decides for another
    path-like object only, and there against the message of line 48: the
    object is accepted when its file is missing and raises [TypeError]
    when the file exists. *)
Theorem init_by_argument (fs : string -> bool) (pdf : pyval) :
  init fs pdf
  = match pdf with
    | PyNone => throw AttributeError
    | PyStr s | PyPath s => ok (mkWorker s)
    | PyPathLike s => if fs s then throw TypeError else ok (mkWorker s)
    | PyBytes _ => throw TypeError
    end
  /\ (forall fs' : string -> bool,
        (forall s : string, pdf <> PyPathLike s) ->
        init fs' pdf = init fs pdf).
Proof.
  destruct pdf as [ | s | s | s | s ]; unfold init; cbn.
  - split; reflexivity.
  - split; reflexivity.
  - split; reflexivity.
  - split; [ destruct (fs s); reflexivity | ].
    intros fs' H. destruct (H s eq_refl).
  - split; [ destruct (fs s); reflexivity | ].
    intros fs' _. destruct (fs s), (fs' s); reflexivity.
Qed.

Lemma init_by_argument_witness :
  init no_files (PyPathLike "missing.pdf") = ok (mkWorker "missing.pdf")
  /\ init (fun _ => true) (PyPathLike "there.pdf") = throw TypeError
  /\ init (fun _ => true) (PyPath "there.pdf")
     = init no_files (PyPath "there.pdf").
Proof.
  split; [ | split ].
  - destruct (init_by_argument no_files (PyPathLike "missing.pdf")) as [H _].
    rewrite H. reflexivity.
  - destruct (init_by_argument (fun _ => true) (PyPathLike "there.pdf"))
      as [H _].
    rewrite H. reflexivity.
  - destruct (init_by_argument no_files (PyPath "there.pdf")) as [_ H].
    apply H. intros s. discriminate.
Defined.

(** ** The page range *)

Module RangeFacts.
Import Worker WorkerFacts.

Lemma py_range_nil_iff (lo hi : Z) : py_range lo hi = [] <-> hi <= lo.
Proof.
  split; [ | apply py_range_empty ].
  intros H. destruct (Z_lt_le_dec lo hi) as [Hlt | ]; [ | assumption ].
  rewrite py_range_cons in H by assumption. discriminate.
Qed.

Lemma py_range_within (lo hi n : Z) :
  Forall (fun i => 0 <= i < n) (py_range lo hi)
  <-> hi <= lo \/ (0 <= lo /\ hi <= n).
Proof.
  rewrite Forall_forall. split.
  - intros H. destruct (Z_lt_le_dec lo hi) as [Hlt | ]; [ right | left; assumption ].
    assert (H1 : 0 <= lo < n) by (apply H, py_range_In; lia).
    assert (H2 : 0 <= hi - 1 < n) by (apply H, py_range_In; lia).
    lia.
  - intros [H | H] i Hi; apply py_range_In in Hi; lia.
Qed.



End RangeFacts.

(** The range is taken from the printer as it is, without clamping: a
    full-range job has [n_pages] indices and a sub-range job has
    [toPage - fromPage + 1]; the indices of a non-empty sub-range all
    lie in the document exactly when [1 <= fromPage] and
    [toPage <= n_pages]. *)
Theorem page_indices_not_clamped (n_pages fromPage toPage : Z) :
  List.length (page_indices n_pages fromPage toPage)
  = (if fromPage =? 0 then Z.to_nat n_pages
     else Z.to_nat (toPage - fromPage + 1))
  /\ (Forall (fun i => 0 <= i < n_pages)
             (page_indices n_pages fromPage toPage)
      <-> page_indices n_pages fromPage toPage = []
          \/ fromPage = 0
          \/ (1 <= fromPage /\ toPage <= n_pages)).
Proof.
  unfold page_indices.
  destruct (Z.eqb_spec fromPage 0) as [ -> | Hf ].
  - split.
    + rewrite py_range_length. f_equal. lia.
    + rewrite RangeFacts.py_range_within, RangeFacts.py_range_nil_iff. lia.
  - split.
    + rewrite py_range_length. f_equal. lia.
    + rewrite RangeFacts.py_range_within, RangeFacts.py_range_nil_iff. lia.
Qed.

(** ** The page geometry *)


(** On well-formed sizes the geometry either returns or raises
    [OverflowError] in the [QRect] constructor.  When it returns, the
    bitmap keeps its size or has it swapped, and the rectangle sits at
    the origin, spans the viewport in width or in height and has sides
    that are non-negative C [int]s.  It raises on a rotated page only,
    and only for a bitmap that does not fit the device. *)
Theorem fitPage_anchored_or_overflow (vw vh pw ph : Z) :
  size_ok vw -> size_ok vh -> size_ok pw -> size_ok ph ->
  (exists f : fit,
      fitPage vw vh pw ph = ok f
      /\ (pilWidth f, pilHeight f)
         = (if rotated f then (ph, pw) else (pw, ph))
      /\ rx (printArea f) = 0 /\ ry (printArea f) = 0
      /\ (rw (printArea f) = vw \/ rh (printArea f) = vh)
      /\ 0 <= rw (printArea f) < 2 ^ 31
      /\ 0 <= rh (printArea f) < 2 ^ 31)
  \/ (fitPage vw vh pw ph = throw OverflowError
      /\ needs_rotation (ratio vh vw) (ratio ph pw) = true
      /\ fits_device vw vh pw ph = false).
Proof.
  intros Hvw Hvh Hpw Hph.
  rewrite (fitPage_ok vw vh pw ph Hvw Hvh Hpw Hph).
  destruct (needs_rotation (ratio vh vw) (ratio ph pw)).
  - assert (Hs : rotated_rect vw vh pw ph = width_rect vw ph pw
                 \/ rotated_rect vw vh pw ph = height_rect vh ph pw)
      by (unfold rotated_rect; destruct (fgt _ _); auto).
    destruct (rect_sides vw vh ph pw _ Hvw Hvh Hph Hpw Hs)
      as (Hx & Hy & Hspan & Hw & Hh).
    destruct (QRect_of_cases (rotated_rect vw vh pw ph))
      as [(Hok & Hcw & Hch) | Hov].
    + left. rewrite Hok. eexists. split; [ reflexivity | ].
      apply is_cint_spec in Hcw, Hch.
      cbn [rbind pilWidth pilHeight rotated printArea].
      repeat split; try assumption; lia.
    + right. rewrite Hov. split; [ reflexivity | ]. split; [ reflexivity | ].
      apply not_true_is_false. intros Hfit.
      rewrite (rotated_rect_built vw vh pw ph Hvw Hvh Hpw Hph Hfit) in Hov.
      discriminate Hov.
  - left. rewrite (fit_rect_float_built vw vh pw ph Hvw Hvh Hpw Hph).
    assert (Hs : fit_rect_float vw vh pw ph = width_rect vw pw ph
                 \/ fit_rect_float vw vh pw ph = height_rect vh pw ph)
      by (unfold fit_rect_float; destruct (fgt _ _); auto).
    destruct (rect_sides vw vh pw ph _ Hvw Hvh Hpw Hph Hs)
      as (Hx & Hy & Hspan & Hw & Hh).
    destruct (QRect_of_cases (fit_rect_float vw vh pw ph))
      as [(_ & Hcw & Hch) | Hov];
      [ | rewrite (fit_rect_float_built vw vh pw ph Hvw Hvh Hpw Hph) in Hov;
          discriminate Hov ].
    apply is_cint_spec in Hcw, Hch.
    eexists. split; [ reflexivity | ].
    cbn [pilWidth pilHeight rotated printArea].
    repeat split; try assumption; lia.
Qed.

Lemma fitPage_anchored_or_overflow_witness :
  (exists f : fit,
      fitPage 9921 14031 2480 3508 = ok f
      /\ rx (printArea f) = 0 /\ ry (printArea f) = 0)
  /\ fitPage 14031 9921 1 216500 = throw OverflowError.
Proof.
  assert (Hs : forall z, 0 < z < 1000000 -> size_ok z)
    by (intros z Hz; unfold size_ok; change (2 ^ 31) with 2147483648; lia).
  split.
  - destruct (fitPage_anchored_or_overflow 9921 14031 2480 3508)
      as [(f & Hf & _ & Hx & Hy & _) | (Hov & _)].
    + apply Hs. lia.
    + apply Hs. lia.
    + apply Hs. lia.
    + apply Hs. lia.
    + exists f. split; [ exact Hf | split; [ exact Hx | exact Hy ] ].
    + vm_compute in Hov. discriminate Hov.
  - destruct (fitPage_anchored_or_overflow 14031 9921 1 216500)
      as [(f & Hf & _) | (Hov & _)].
    + apply Hs. lia.
    + apply Hs. lia.
    + apply Hs. lia.
    + apply Hs. lia.
    + vm_compute in Hf. discriminate Hf.
    + exact Hov.
Defined.

(** A bitmap or a viewport with a zero side makes the geometry raise
    [ZeroDivisionError]: at once for a zero bitmap width or viewport
    width, and in the computation of the rectangle for a zero bitmap
    height. *)
Theorem fitPage_zero_dimension (vw vh pw ph : Z) :
  pw = 0
  \/ (pw <> 0 /\ vw = 0)
  \/ (ph = 0 /\ size_ok pw /\ size_ok vw /\ size_ok vh) ->
  fitPage vw vh pw ph = throw ZeroDivisionError.
Proof.
  intros [ -> | [ [Hpw ->] | (-> & Hpw & Hvw & Hvh) ] ].
  - reflexivity.
  - unfold fitPage, truediv. destruct (Z.eqb_spec pw 0); [ contradiction | ].
    reflexivity.
  - unfold fitPage.
    destruct (ratio_size vh vw Hvh Hvw) as (Hv & mv & ev & Hrv & _).
    assert (Hi : truediv 0 pw = ok (S754_zero false)).
    { unfold truediv. destruct (Z.eqb_spec pw 0) as [ E | _ ];
        [ unfold size_ok in Hpw; lia | ].
      destruct (of_int_size pw Hpw) as (mp & ep & -> & _). reflexivity. }
    rewrite Hi, Hv, Hrv. cbn [rbind].
    assert (Hgt : fgt (S754_finite false mv ev) (S754_zero false) = true)
      by reflexivity.
    rewrite Hgt.
    destruct (needs_rotation (S754_finite false mv ev) (S754_zero false)).
    + unfold fit_width. rewrite Hi. reflexivity.
    + unfold fit_width, truediv. reflexivity.
Qed.

Lemma fitPage_zero_dimension_witness :
  fitPage 9921 14031 0 3508 = throw ZeroDivisionError.
Proof.
  apply fitPage_zero_dimension. left. reflexivity.
Defined.

(** A square viewport or a square bitmap never triggers the rotation:
    the two tests of line 86 are strict. *)
Theorem square_never_rotates (vw vh pw ph : Z) :
  size_ok vw -> size_ok vh -> size_ok pw -> size_ok ph ->
  vw = vh \/ pw = ph ->
  needs_rotation (ratio vh vw) (ratio ph pw) = false
  /\ fitPage vw vh pw ph = ok (mkFit false pw ph (fit_rect_float vw vh pw ph)).
Proof.
  intros Hvw Hvh Hpw Hph Hsq.
  assert (Hrot : needs_rotation (ratio vh vw) (ratio ph pw) = false).
  { destruct Hsq as [ -> | -> ].
    - rewrite (FitMore.ratio_same vh Hvh). apply FitMore.needs_rotation_unit_l.
    - rewrite (FitMore.ratio_same ph Hph). apply FitMore.needs_rotation_unit_r. }
  split; [ exact Hrot | ].
  apply (fitPage_unrotated_ok vw vh pw ph Hvw Hvh Hpw Hph Hrot).
Qed.

Lemma square_never_rotates_witness :
  needs_rotation (ratio 500 500) (ratio 300 100) = false.
Proof.
  assert (Hs : forall z, 0 < z < 100000 -> size_ok z)
    by (intros z Hz; unfold size_ok; change (2 ^ 31) with 2147483648; lia).
  destruct (square_never_rotates 500 500 100 300) as [H _].
  - apply Hs. lia.
  - apply Hs. lia.
  - apply Hs. lia.
  - apply Hs. lia.
  - left. reflexivity.
  - exact H.
Defined.

(** ** The render loop, whatever the renderer does *)

Module LoopFacts.
Import PyFloat Fit FitSpec Worker WorkerSpec.
Import PyFloatFacts FitFacts FitBounds WorkerFacts.

Lemma count_cons (p : event -> bool) (ev : event) (t : list event) :
  count p (ev :: t) = ((if p ev then 1 else 0) + count p t)%nat.
Proof. unfold count. cbn [filter]. destruct (p ev); reflexivity. Qed.

(** Draws, progress values and page advances stay in step. *)
Lemma render_loop_counts (vw vh total : Z) (indices : list Z) :
  forall (images : list (result (Z * Z))) (pn : Z),
    1 <= pn ->
    let m := render_loop vw vh total indices images pn in
    let d := count is_draw (trace_of m) in
    let p := count is_progress (trace_of m) in
    let n := count is_newPage (trace_of m) in
    (p <= d <= p + 1)%nat
    /\ (if 1 <? pn then (d <= n <= d + 1)%nat else (n <= d <= n + 1)%nat)
    /\ (outcome_of m = ok tt ->
        p = d /\ n = if 1 <? pn then d else Nat.pred d).
Proof.
  induction indices as [ | i indices IH ]; intros images pn Hpn.
  - cbn. destruct (1 <? pn); repeat split; lia.
  - destruct images as [ | [ e | [w h] ] images ].
    + cbn. destruct (1 <? pn); repeat split; lia.
    + cbn. destruct (1 <? pn); repeat split; try lia; discriminate.
    + cbv zeta. rewrite render_loop_step. cbv zeta.
      specialize (IH images (pn + 1) ltac:(lia)). cbv zeta in IH.
      replace (1 <? pn + 1) with true in IH
        by (symmetry; apply Z.ltb_lt; lia).
      destruct IH as (IHp & IHn & IHo).
      destruct (fitPage vw vh w h) as [ e | f ].
      { cbn [trace_of outcome_of fst snd].
        destruct (1 <? pn); cbn; repeat split; try lia; discriminate. }
      destruct (percent pn total) as [ e | q ].
      { cbn [trace_of outcome_of fst snd].
        destruct (1 <? pn); cbn; repeat split; try lia; discriminate. }
      cbn [trace_of outcome_of fst snd].
      set (rest := render_loop vw vh total indices images (pn + 1)) in *.
      rewrite !count_app. cbn [app]. rewrite !count_cons.
      cbn [is_draw is_progress is_newPage].
      destruct (1 <? pn) eqn:E; unfold count in *;
        cbn [filter List.length is_draw is_progress is_newPage Nat.add].
      * split; [ lia | ]. split; [ lia | ].
        intros Ho. destruct (IHo Ho) as [H1 H2]. lia.
      * split; [ lia | ]. split; [ lia | ].
        intros Ho. destruct (IHo Ho) as [H1 H2]. cbn [Nat.pred]. lia.
Qed.



Lemma prefix_sorted (l1 l2 : list Z) :
  StronglySorted Z.le (l1 ++ l2) -> StronglySorted Z.le l1.
Proof.
  induction l1 as [ | a l1 IH ]; intros H; [ constructor | ].
  cbn [app] in H. inversion H as [ | x l Hs Hf ]; subst.
  constructor; [ apply IH; exact Hs | ].
  apply Forall_app in Hf. apply Hf.
Qed.

Lemma floor_percents_bounds (N : Z) :
  Forall (fun v => 0 <= v <= 100) (floor_percents N).
Proof.
  unfold floor_percents. apply Forall_map, Forall_forall.
  intros k Hk. apply py_range_In in Hk.
  split; [ apply Z.div_pos; lia | ].
  apply Z.div_le_upper_bound; lia.
Qed.


Lemma count_frame (p : event -> bool) (pre post t : list event) :
  count p pre = 0%nat -> count p post = 0%nat ->
  count p (pre ++ t ++ post) = count p t.
Proof. intros H1 H2. rewrite !count_app, H1, H2. lia. Qed.

End LoopFacts.

Import LoopFacts.

(** In every job, whatever the dialog, the document and the renderer do,
    the draws, the progress values and the page advances stay in step:
    a progress value follows each draw and a page advance precedes each
    draw but the first.  When [run] returns there are as many progress
    values as draws and one page advance less. *)
Theorem run_counts_in_step (j : job) :
  let t := trace_of (run j) in
  (count is_progress t <= count is_draw t <= count is_progress t + 1)%nat
  /\ (count is_newPage t <= count is_draw t <= count is_newPage t + 1)%nat
  /\ match outcome_of (run j) with
     | inr _ =>
         count is_progress t = count is_draw t
         /\ count is_newPage t = Nat.pred (count is_draw t)
     | inl _ => True
     end.
Proof.
  cbv zeta. destruct (dialog_exec j) eqn:Hd.
  - destruct (open_document j) as [ e | n_pages ] eqn:Ho.
    + rewrite (run_open_fails j e Hd Ho). cbn. repeat split; lia.
    + rewrite (run_accepted j n_pages Hd Ho).
      cbn [trace_of outcome_of fst snd].
      pose proof (render_loop_counts (fst (viewport j)) (snd (viewport j))
                    (len (page_indices n_pages (fromPage j) (toPage j)))
                    (page_indices n_pages (fromPage j) (toPage j))
                    (renderer j (page_indices n_pages (fromPage j) (toPage j)))
                    1 ltac:(lia)) as H.
      cbv zeta in H. change (1 <? 1) with false in H.
      change (render_loop _ _ _ _ _ 1) with (loop_of j n_pages) in H.
      destruct H as (Hp & Hn & Hok).
      destruct (outcome_of (loop_of j n_pages)) as [ e | [] ];
        rewrite !count_frame by reflexivity.
      * repeat split; lia.
      * destruct (Hok eq_refl) as [H1 H2]. repeat split; lia.
  - rewrite (run_declined j Hd). cbn. repeat split; lia.
Qed.





(** Whatever the renderer does, the progress values of a job never
    decrease and lie between 0 and 100, and 100 is reported only once a
    value was reported for every page of the range. *)
Theorem progress_values_bounded (j : job) (n_pages : Z) :
  dialog_exec j = true -> open_document j = ok n_pages ->
  let indices := page_indices n_pages (fromPage j) (toPage j) in
  len indices < 2 ^ 31 ->
  let values := progress_values (trace_of (run j)) in
  StronglySorted Z.le values
  /\ Forall (fun v => 0 <= v <= 100) values
  /\ (List.length values <= List.length indices)%nat
  /\ (In 100 values -> List.length values = List.length indices).
Proof.
  intros Hd Ho indices Hlen values.
  destruct (run_loop_values j n_pages Hd Ho) as [Hv _].
  destruct (render_loop_progress_prefix (fst (viewport j)) (snd (viewport j))
              (len indices) indices Hlen (renderer j indices) 1)
    as [rest Hrest]; [ lia | lia | ].
  change (render_loop _ _ _ _ _ 1) with (loop_of j n_pages) in Hrest.
  rewrite <- Hv in Hrest. fold values in Hrest.
  rewrite (Z.add_comm 1 (len indices)) in Hrest.
  fold (floor_percents (len indices)) in Hrest.
  assert (HlenN : List.length (floor_percents (len indices))
                  = List.length indices).
  { unfold floor_percents. rewrite length_map, py_range_length.
    unfold len. lia. }
  assert (Hle : (List.length values <= List.length indices)%nat).
  { rewrite <- HlenN, Hrest, length_app. lia. }
  split.
  { destruct (Z_lt_le_dec (len indices) 1) as [Hz | Hpos].
    - assert (Hnil : values = []).
      { destruct values as [ | v vs ]; [ reflexivity | ].
        cbn [List.length] in Hle. unfold len in Hz. lia. }
      rewrite Hnil. constructor.
    - apply (prefix_sorted values rest). rewrite <- Hrest.
      apply floor_percents_sorted. exact Hpos. }
  split.
  { pose proof (floor_percents_bounds (len indices)) as Hb.
    rewrite Hrest in Hb. apply Forall_app in Hb. apply Hb. }
  split; [ exact Hle | ].
  intros Hin. apply In_nth_error in Hin as [i Hi].
  assert (Hi' : nth_error (floor_percents (len indices)) i = Some 100).
  { rewrite Hrest, nth_error_app1; [ exact Hi | ].
    apply nth_error_Some. rewrite Hi. discriminate. }
  assert (Hlt : (i < List.length values)%nat)
    by (apply nth_error_Some; rewrite Hi; discriminate).
  replace i with (Z.to_nat (Z.of_nat i + 1 - 1)) in Hi' by lia.
  rewrite floor_percents_nth in Hi' by (unfold len; lia).
  injection Hi' as Hi'.
  assert (Hge : len indices <= Z.of_nat i + 1).
  { destruct (Z_lt_le_dec (Z.of_nat i + 1) (len indices)) as [Hc | ];
      [ | assumption ].
    assert ((Z.of_nat i + 1) * 100 / len indices < 100)
      by (apply Z.div_lt_upper_bound; lia).
    lia. }
  unfold len in Hge. lia.
Qed.

Lemma progress_values_bounded_witness :
  Forall (fun v => 0 <= v <= 100)
         (progress_values (trace_of (run (job_full 7)))).
Proof.
  destruct (progress_values_bounded (job_full 7) 7) as (_ & Hb & _).
  - reflexivity.
  - reflexivity.
  - reflexivity.
  - exact Hb.
Defined.

(** ** The window *)

Import ShellSpec.

Module WindowFacts.
Import Worker WorkerSpec WorkerFacts Shell ShellSpec.

Lemma last_cons_default (a d : Z) (l : list Z) : last (a :: l) d = last l a.
Proof.
  revert a d. induction l as [ | b l IH ]; intros a d; [ reflexivity | ].
  change (last (a :: b :: l) d) with (last (b :: l) d).
  rewrite (IH b d), (IH b a). reflexivity.
Qed.

Lemma runPrintTask_result (fs : string -> bool) (picked : string)
    (w : Window) :
  outcome_of (runPrintTask fs picked w)
  = ok (mkWindow (clicksCount w) (clicksLabel w) (stepLabel w) false
                 (Some (mkWorker picked)) true).
Proof.
  unfold runPrintTask, runPrintTask_on, getFile.
  cbn [bind emit ret lift app].
  rewrite ShellFacts.init_str. reflexivity.
Qed.

Lemma deliver_app (t1 t2 : list event) (w : Window) :
  deliver (t1 ++ t2) w = bind (deliver t1 w) (fun w' => deliver t2 w').
Proof.
  revert w. induction t1 as [ | ev t1 IH ]; intros w.
  - cbn. destruct (deliver t2 w). reflexivity.
  - cbn [app deliver].
    destruct (on_signal w ev) as [u [ e | w1 ]]; [ reflexivity | ].
    cbn [bind]. rewrite IH.
    destruct (deliver t1 w1) as [u1 [ e | w2 ]]; [ reflexivity | ].
    cbn [bind]. destruct (deliver t2 w2) as [u2 r].
    rewrite app_assoc. reflexivity.
Qed.

(** Without [finished] in it, a trace only moves the progress label. *)
Lemma deliver_quiet (t : list event) :
  count is_finished t = 0%nat ->
  forall w : Window,
    deliver t w
    = ([], ok (mkWindow (clicksCount w) (clicksLabel w)
                        (last (progress_values t) (stepLabel w))
                        (longRunningBtn_enabled w) (worker w)
                        (thread_started w))).
Proof.
  induction t as [ | ev t IH ]; intros Hf w.
  - destruct w. reflexivity.
  - rewrite LoopFacts.count_cons in Hf.
    destruct ev as [ | | | idx | | area wd ht | pc | | | | ];
      cbn [is_finished] in Hf; try lia;
      cbn [deliver on_signal progress_values];
      try (unfold ret; cbn [bind]; rewrite (IH Hf w); reflexivity).
    unfold ret. cbn [bind]. rewrite (IH Hf (reportProgress w pc)).
    cbn [app reportProgress clicksCount clicksLabel stepLabel
         longRunningBtn_enabled worker thread_started].
    rewrite last_cons_default. reflexivity.
Qed.

Lemma run_returned_shape (j : job) :
  outcome_of (run j) = ok tt ->
  exists pre : list event,
    trace_of (run j) = pre ++ [EvFinished]
    /\ count is_finished pre = 0%nat.
Proof.
  intros Hout. destruct (dialog_exec j) eqn:Hd.
  - destruct (open_document j) as [ e | n_pages ] eqn:Ho.
    + rewrite (run_open_fails j e Hd Ho) in Hout. discriminate.
    + rewrite (run_accepted j n_pages Hd Ho) in Hout |- *.
      cbn [trace_of outcome_of fst snd] in Hout |- *. rewrite Hout.
      pose proof (render_loop_events (fst (viewport j)) (snd (viewport j))
                    (len (page_indices n_pages (fromPage j) (toPage j)))
                    (page_indices n_pages (fromPage j) (toPage j))
                    (renderer j (page_indices n_pages (fromPage j) (toPage j)))
                    1) as Hev.
      change (render_loop _ _ _ _ _ 1) with (loop_of j n_pages) in Hev.
      destruct (loop_no_finished _ Hev) as [Hfin _].
      exists ([EvDialogExec; EvPainterBegin; EvOpenDocument;
               EvRender (page_indices n_pages (fromPage j) (toPage j))]
              ++ trace_of (loop_of j n_pages)
              ++ [EvPdfClose; EvPainterEnd; EvDelPrinter]).
      split.
      * rewrite <- !app_assoc. reflexivity.
      * rewrite !count_app, Hfin. reflexivity.
  - rewrite (run_declined j Hd). exists [EvDialogExec; EvDelPrinter].
    split; reflexivity.
Qed.

End WindowFacts.

(** A click on the print button always starts a job, whatever path the
    picker returned and whatever files exist: the worker is built on the
    path, the thread is started once, the button is disabled, and the
    click counter and both labels are left as they were. *)
Theorem runPrintTask_always_starts (fs : string -> bool) (picked : string)
    (w : Window) :
  exists (t : list ui_event) (w' : Window),
    runPrintTask fs picked w = (t, ok w')
    /\ worker w' = Some (mkWorker picked)
    /\ thread_started w' = true
    /\ longRunningBtn_enabled w' = false
    /\ clicksCount w' = clicksCount w
    /\ clicksLabel w' = clicksLabel w
    /\ stepLabel w' = stepLabel w
    /\ List.length (filter is_thread_start t) = 1%nat
    /\ List.length (filter is_new_worker t) = 1%nat.
Proof.
  unfold runPrintTask, runPrintTask_on, getFile.
  cbn [bind emit ret lift app].
  rewrite init_str. cbn [bind app].
  do 2 eexists. split; [ reflexivity | ]. repeat split.
Qed.

(** [n] clicks on the counter button add [n] to the counter, keep its
    label showing the counter, and touch nothing of the print state. *)
Theorem countClicks_iter (n : nat) (w : Window) :
  let w' := Nat.iter n countClicks w in
  clicksCount w' = clicksCount w + Z.of_nat n
  /\ (0 < n -> clicksLabel w' = clicksCount w')%nat
  /\ stepLabel w' = stepLabel w
  /\ longRunningBtn_enabled w' = longRunningBtn_enabled w
  /\ worker w' = worker w
  /\ thread_started w' = thread_started w.
Proof.
  induction n as [ | n IH ]; cbv zeta.
  - cbn. repeat split; lia.
  - cbv zeta in IH. destruct IH as (H1 & _ & H3 & H4 & H5 & H6).
    rewrite Nat.iter_succ.
    cbn [countClicks clicksCount clicksLabel stepLabel
         longRunningBtn_enabled worker thread_started].
    repeat split; try assumption; lia.
Qed.

(** In every state the handlers can reach, the click label shows the
    click counter, the counter is not negative, a worker exists exactly
    when a thread was started, and a disabled print button means that a
    job was started. *)
Theorem reachable_invariants (w : Window) :
  reachable w ->
  clicksLabel w = clicksCount w
  /\ 0 <= clicksCount w
  /\ (thread_started w = true <-> worker w <> None)
  /\ (longRunningBtn_enabled w = false -> thread_started w = true).
Proof.
  intros H.
  induction H as [ | w Hw IH | w n Hw IH | w w' Hw IH Hp
                   | fs picked w w' Hw IH Hp ].
  - cbn. repeat split; intros; try lia; congruence.
  - destruct IH as (H1 & H2 & H3 & H4). cbn.
    repeat split; intros; try lia; tauto.
  - destruct IH as (H1 & H2 & H3 & H4). cbn.
    repeat split; intros; try lia; tauto.
  - destruct IH as (H1 & H2 & H3 & H4). cbn in Hp. injection Hp as <-.
    cbn. repeat split; intros; try lia; try tauto; congruence.
  - destruct IH as (H1 & H2 & H3 & H4).
    rewrite WindowFacts.runPrintTask_result in Hp. injection Hp as <-.
    cbn. repeat split; intros; try lia; congruence.
Qed.

Lemma reachable_invariants_witness :
  clicksLabel (countClicks Window_init) = clicksCount (countClicks Window_init).
Proof.
  destruct (reachable_invariants (countClicks Window_init)) as (H & _).
  - apply reach_countClicks. apply reach_init.
  - exact H.
Defined.

Module DeliverFacts.
Import Worker WorkerSpec WorkerFacts Shell ShellSpec WindowFacts.

(** What becomes of the window and the program after one job. *)
Lemma after_job_run (j : job) (w : Window) :
  after_job j w
  = match outcome_of (run j) with
    | inr _ =>
        ([UiSetEnabled true; UiMessageBox],
         ok (Running (mkWindow (clicksCount w) (clicksLabel w) 0 true
                               (worker w) (thread_started w))))
    | inl _ => ([], ok Aborted)
    end.
Proof.
  unfold after_job.
  destruct (outcome_of (run j)) as [ e | [] ] eqn:Hout; [ reflexivity | ].
  destruct (run_returned_shape j Hout) as (pre & -> & Hpre).
  rewrite deliver_app, (deliver_quiet pre Hpre w). reflexivity.
Qed.

End DeliverFacts.

(** A click on the print button followed by the job it started.  If
    [run] returns, its signals reach the window: the button is enabled
    again, the progress label is back at 0, the completion dialog is
    shown once, and the click counter, its label and the worker are as
    they were.  If [run] raises, the exception leaves the slot and the
    process is ended: the button is never enabled again and no dialog is
    shown. *)
Theorem print_click_round_trip (fs : string -> bool) (picked : string)
    (w : Window) (j : job) :
  exists (t1 : list ui_event) (w1 : Window),
    runPrintTask fs picked w = (t1, ok w1)
    /\ longRunningBtn_enabled w1 = false
    /\ after_job j w1
       = match outcome_of (run j) with
         | inr _ =>
             ([UiSetEnabled true; UiMessageBox],
              ok (Running (mkWindow (clicksCount w) (clicksLabel w) 0 true
                                    (Some (mkWorker picked)) true)))
         | inl _ => ([], ok Aborted)
         end.
Proof.
  pose proof (WindowFacts.runPrintTask_result fs picked w) as Hr.
  destruct (runPrintTask fs picked w) as [t1 r1]. cbn [outcome_of snd] in Hr.
  subst r1. do 2 eexists. split; [ reflexivity | ].
  split; [ reflexivity | ].
  rewrite DeliverFacts.after_job_run. reflexivity.
Qed.

(** ** The fit in exact arithmetic *)


Import FitExact.

(** On a page that is not rotated the rectangle never leaves the
    viewport, and it keeps the aspect ratio of the bitmap up to one
    device unit: it spans the viewport width with a height within one
    unit of the exact [vw * ph / pw], or the viewport height with a width
    within one unit of the exact [vh * pw / ph]. *)
Theorem unrotated_fit_in_viewport (vw vh pw ph : Z) :
  size_ok vw -> size_ok vh -> size_ok pw -> size_ok ph ->
  needs_rotation (ratio vh vw) (ratio ph pw) = false ->
  exists f : fit,
    fitPage vw vh pw ph = ok f
    /\ rect_in_viewport vw vh (printArea f)
    /\ ((rw (printArea f) = vw
         /\ vw * ph - 2 * pw < rh (printArea f) * pw < vw * ph + pw)
        \/ (rh (printArea f) = vh
            /\ vh * pw - 2 * ph < rw (printArea f) * ph < vh * pw + ph)).
Proof.
  intros Hvw Hvh Hpw Hph Hrot.
  rewrite (fitPage_unrotated_ok vw vh pw ph Hvw Hvh Hpw Hph Hrot).
  eexists. split; [ reflexivity | ].
  cbn [printArea]. unfold fit_rect_float, rect_in_viewport.
  destruct (fgt (ratio vh vw) (ratio ph pw)) eqn:Hgt.
  - destruct (FloatValue.width_rect_exact vw vh pw ph Hvw Hvh Hpw Hph Hgt)
      as (H1 & H2 & H3).
    unfold size_ok in Hvw, Hvh.
    split; [ | left; split; assumption ].
    rewrite H1. cbn [rx ry width_rect]. repeat split; lia.
  - destruct (FloatValue.height_rect_exact vw vh pw ph Hvw Hvh Hpw Hph Hgt)
      as (H1 & H2 & H3).
    unfold size_ok in Hvw, Hvh.
    split; [ | right; split; assumption ].
    rewrite H1. cbn [rx ry height_rect]. repeat split; lia.
Qed.

Lemma unrotated_fit_in_viewport_witness :
  exists f : fit,
    fitPage 9921 14031 2480 3508 = ok f
    /\ rect_in_viewport 9921 14031 (printArea f).
Proof.
  assert (Hs : forall z, 0 < z < 100000 -> size_ok z)
    by (intros z Hz; unfold size_ok; change (2 ^ 31) with 2147483648; lia).
  destruct (unrotated_fit_in_viewport 9921 14031 2480 3508)
    as (f & Hf & Hin & _).
  - apply Hs. lia.
  - apply Hs. lia.
  - apply Hs. lia.
  - apply Hs. lia.
  - vm_compute. reflexivity.
  - exists f. split; [ exact Hf | exact Hin ].
Defined.

(** On a page that is rotated the branch is chosen by the shape of the
    viewport alone, because line 91 compares against the ratio taken
    before the rotation: a portrait viewport always gets the fit to the
    width and a landscape viewport the fit to the height, both computed
    on the swapped bitmap size.  That rectangle is drawn into if its
    sides are C [int]s, which they are for a bitmap that fits the device;
    otherwise the [QRect] constructor raises [OverflowError]. *)
Theorem rotated_fit_follows_viewport (vw vh pw ph : Z) :
  size_ok vw -> size_ok vh -> size_ok pw -> size_ok ph ->
  needs_rotation (ratio vh vw) (ratio ph pw) = true ->
  let area := if fgt (ratio vh vw) (of_int 1) then width_rect vw ph pw
              else height_rect vh ph pw in
  flt (ratio vh vw) (of_int 1) = negb (fgt (ratio vh vw) (of_int 1))
  /\ fitPage vw vh pw ph
     = (if is_cint (rw area) && is_cint (rh area)
        then ok (mkFit true ph pw area)
        else throw OverflowError)
  /\ (fits_device vw vh pw ph = true ->
      fitPage vw vh pw ph = ok (mkFit true ph pw area)).
Proof.
  intros Hvw Hvh Hpw Hph Hrot area.
  destruct (FloatValue.rotation_decides_branch vw vh pw ph Hvw Hvh Hpw Hph Hrot)
    as [Hbr Hside].
  assert (Harea : rotated_rect vw vh pw ph = area)
    by (unfold rotated_rect, area; rewrite Hbr; reflexivity).
  split; [ exact Hside | ].
  split.
  - rewrite (fitPage_ok vw vh pw ph Hvw Hvh Hpw Hph), Hrot, Harea.
    unfold QRect_of, QRect_init.
    assert (Hx : rx area = 0 /\ ry area = 0)
      by (unfold area; destruct (fgt _ _); split; reflexivity).
    destruct Hx as [-> ->].
    change (is_cint 0) with true. cbn [andb].
    destruct (is_cint (rw area) && is_cint (rh area)); [ | reflexivity ].
    cbn [rbind]. f_equal. f_equal. unfold area.
    destruct (fgt _ _); reflexivity.
  - intros Hfit.
    rewrite (fitPage_fits_ok vw vh pw ph Hvw Hvh Hpw Hph Hfit), Hrot, Harea.
    reflexivity.
Qed.

Lemma rotated_fit_follows_viewport_witness :
  fitPage 100 200 300 100
  = ok (mkFit true 100 300 (width_rect 100 100 300))
  /\ fitPage 14031 9921 1 216500 = throw OverflowError.
Proof.
  assert (Hs : forall z, 0 < z < 1000000 -> size_ok z)
    by (intros z Hz; unfold size_ok; change (2 ^ 31) with 2147483648; lia).
  split.
  - destruct (rotated_fit_follows_viewport 100 200 300 100) as (_ & _ & H).
    + apply Hs. lia.
    + apply Hs. lia.
    + apply Hs. lia.
    + apply Hs. lia.
    + vm_compute. reflexivity.
    + rewrite H; reflexivity.
  - destruct (rotated_fit_follows_viewport 14031 9921 1 216500) as (_ & H & _).
    + apply Hs. lia.
    + apply Hs. lia.
    + apply Hs. lia.
    + apply Hs. lia.
    + vm_compute. reflexivity.
    + rewrite H. vm_compute. reflexivity.
Defined.

Lemma countClicks_iter_witness :
  clicksCount (Nat.iter 3 countClicks Window_init) = 3
  /\ clicksLabel (Nat.iter 3 countClicks Window_init) = 3.
Proof.
  destruct (countClicks_iter 3 Window_init) as (Hc & Hl & _).
  split; [ exact Hc | ].
  rewrite Hl; [ exact Hc | lia ].
Defined.
